(** * The yt-dlp HTTP service: cache-and-dispatch facade

    A shallow embedding of [services/ytdlp/server.py] (class
    [YTDLPService]) and the properties of its result cache, request
    handlers and metadata normalisers.

    Conventions of the embedding.
    - Python values that travel through the service (the info dictionary
      returned by [YoutubeDL.extract_info], the JSON payloads built from
      it) are values of [pyval]; a dictionary is an association list in
      insertion order, read with [dict_get] as [dict.get] reads it.
      One [ascii] of a [string] stands for one character.  Floating point
      numbers are not represented.
    - A Python exception is the [None] of an [option]; the [try]/[except]
      blocks of the source are the places where that [None] is consumed.
    - [datetime] and [timedelta] values are integers (microseconds), the
      unit in which Python stores and compares them.
    - [self.cache] is a [gmap] from the key string to the stored entry;
      [self.request_count] and [self.error_count] are unbounded integers. *)

From Stdlib Require Import ZArith String Ascii DecimalString DecimalPos DecimalZ.
From stdpp Require Import base option list strings sorting gmap fin_maps.

Set Warnings "-register-all".

Local Open Scope string_scope.
Local Open Scope Z_scope.
Local Open Scope list_scope.

(** ** Python values *)

Inductive pyval : Type :=
| PNone
| PBool (b : bool)
| PInt (z : Z)
| PStr (s : string)
| PList (l : list pyval)
| PDict (d : list (string * pyval)).

Abbreviation dict := (list (string * pyval)).

(** [bool(v)]: the truth value Python gives to [v] in [if v] and [not v]. *)
Definition truthy (v : pyval) : bool :=
  match v with
  | PNone => false
  | PBool b => b
  | PInt z => negb (z =? 0)
  | PStr s => negb (String.eqb s "")
  | PList l => match l with [] => false | _ => true end
  | PDict d => match d with [] => false | _ => true end
  end.

(** [k in d] and [d[k]] on a dictionary. *)
Fixpoint dict_lookup (d : dict) (k : string) : option pyval :=
  match d with
  | [] => None
  | (k', v) :: d' => if String.eqb k' k then Some v else dict_lookup d' k
  end.

(** [d.get(k, default)]. *)
Definition dict_get (d : dict) (k : string) (default : pyval) : pyval :=
  match dict_lookup d k with
  | Some v => v
  | None => default
  end.

(** [x.get] exists on dictionaries only: on any other value the attribute
    access raises [AttributeError]. *)
Definition as_dict (v : pyval) : option dict :=
  match v with
  | PDict d => Some d
  | _ => None
  end.

(** The items a [for] loop sees; [None], booleans and integers are not
    iterable ([TypeError]).  A dictionary iterates over its keys, a string
    over its characters. *)
Definition py_iter (v : pyval) : option (list pyval) :=
  match v with
  | PList l => Some l
  | PDict d => Some (map (fun kv => PStr (fst kv)) d)
  | PStr s => Some (map (fun c => PStr (String c EmptyString)) (list_ascii_of_string s))
  | PNone | PBool _ | PInt _ => None
  end.

(** [str(n)] of an integer, as an f-string inserts it. *)
Definition py_str_int (n : Z) : string :=
  NilZero.string_of_int (Z.to_int n).

(** [l[:n]] for an integer [n]: a negative bound counts from the end. *)
Definition slice_upto {A : Type} (l : list A) (n : Z) : list A :=
  if 0 <=? n then take (Z.to_nat n) l
  else take (Z.to_nat (Z.of_nat (length l) + n)) l.

(** ** The TTL cache store *)

(** One value of [self.cache]: [{'data': ..., 'timestamp': ...}]. *)
Record cache_entry : Type := CacheEntry {
  data : pyval;
  timestamp : Z
}.

Module Cache.

(** The lookup both handlers inline:
    [if cache_key in self.cache:
         cache_entry = self.cache[cache_key]
         if datetime.now() - cache_entry['timestamp'] < self.cache_ttl: (hit)]. *)
Definition get (cache_ttl : Z) (cache : gmap string cache_entry)
    (cache_key : string) (now : Z) : option pyval :=
  match cache !! cache_key with
  | Some e => if now - timestamp e <? cache_ttl then Some (data e) else None
  | None => None
  end.

(** [self.cache[cache_key] = {'data': v, 'timestamp': datetime.now()}]. *)
Definition set (cache : gmap string cache_entry) (cache_key : string)
    (v : pyval) (now : Z) : gmap string cache_entry :=
  <[cache_key := CacheEntry v now]> cache.

(** [self.cache.clear()]. *)
Definition clear (cache : gmap string cache_entry) : gmap string cache_entry := ∅.

(** [cleanup_cache]: collect the keys whose entry has
    [now - entry['timestamp'] > self.cache_ttl], then delete them. *)
Definition expired_keys (cache_ttl : Z) (cache : gmap string cache_entry)
    (now : Z) : list string :=
  (filter (fun kv => cache_ttl < now - timestamp kv.2) (map_to_list cache)).*1.

Definition cleanup (cache_ttl : Z) (cache : gmap string cache_entry)
    (now : Z) : gmap string cache_entry :=
  foldr delete cache (expired_keys cache_ttl cache now).

End Cache.

(** ** Metadata normaliser *)

(** [_clean_formats]: one dictionary of eighteen fields per format. *)
Definition clean_format (fmt : dict) : pyval :=
  PDict [ ("format_id", dict_get fmt "format_id" (PStr ""));
          ("url", dict_get fmt "url" (PStr ""));
          ("ext", dict_get fmt "ext" (PStr ""));
          ("format", dict_get fmt "format" (PStr ""));
          ("protocol", dict_get fmt "protocol" PNone);
          ("vcodec", dict_get fmt "vcodec" PNone);
          ("acodec", dict_get fmt "acodec" PNone);
          ("width", dict_get fmt "width" PNone);
          ("height", dict_get fmt "height" PNone);
          ("fps", dict_get fmt "fps" PNone);
          ("tbr", dict_get fmt "tbr" PNone);
          ("vbr", dict_get fmt "vbr" PNone);
          ("abr", dict_get fmt "abr" PNone);
          ("asr", dict_get fmt "asr" PNone);
          ("filesize", dict_get fmt "filesize" PNone);
          ("quality", dict_get fmt "quality" PNone);
          ("language", dict_get fmt "language" PNone);
          ("preference", dict_get fmt "preference" PNone) ].

(** [_clean_thumbnails]: one dictionary of five fields per thumbnail. *)
Definition clean_thumb (thumb : dict) : pyval :=
  PDict [ ("id", dict_get thumb "id" PNone);
          ("url", dict_get thumb "url" (PStr ""));
          ("width", dict_get thumb "width" PNone);
          ("height", dict_get thumb "height" PNone);
          ("resolution", dict_get thumb "resolution" PNone) ].

(** The loop shared by the two cleaners: [for x in xs: out.append({... x.get ...})].
    It raises when [xs] is not iterable or an item has no [get]. *)
Definition clean_each (clean : dict -> pyval) (xs : pyval) : option pyval :=
  items ← py_iter xs;
  cleaned ← mapM (fun x => clean <$> as_dict x) items;
  Some (PList cleaned).

Definition _clean_formats (formats : pyval) : option pyval :=
  clean_each clean_format formats.

Definition _clean_thumbnails (thumbnails : pyval) : option pyval :=
  clean_each clean_thumb thumbnails.

(** *** Thumbnail selection *)

(** The sort key [lambda x: (x.get('width', 0), x.get('height', 0))]. *)
Definition thumb_key (x : dict) : pyval * pyval :=
  (dict_get x "width" (PInt 0), dict_get x "height" (PInt 0)).

(** Python's [==] and [<] on the key components the model orders:
    integers and [None].  [None] supports [==] but not [<], and an integer
    is not ordered against [None]: [py_lt] is then [None], the [TypeError]. *)
Definition py_eq (a b : pyval) : bool :=
  match a, b with
  | PInt x, PInt y => x =? y
  | PNone, PNone => true
  | _, _ => false
  end.

Definition py_lt (a b : pyval) : option bool :=
  match a, b with
  | PInt x, PInt y => Some (x <? y)
  | _, _ => None
  end.

(** [a < b] on two pairs: the first components that differ under [==]
    are compared with [<]; equal pairs are not less. *)
Definition tuple_lt (a b : pyval * pyval) : option bool :=
  if py_eq a.1 b.1 then
    if py_eq a.2 b.2 then Some false else py_lt a.2 b.2
  else py_lt a.1 b.1.

Definition is_int (v : pyval) : bool :=
  match v with PInt _ => true | _ => false end.

Definition is_int_or_none (v : pyval) : bool :=
  match v with PInt _ | PNone => true | _ => false end.

(** A thumbnail whose width and height are integers or absent. *)
Definition int_keyed (x : dict) : bool :=
  is_int (thumb_key x).1 && is_int (thumb_key x).2.

Definition int_or_none_keyed (x : dict) : bool :=
  is_int_or_none (thumb_key x).1 && is_int_or_none (thumb_key x).2.

(** A stable ascending sort by [thumb_key], written with [<] only, as
    [list.sort] is.  [x] goes in front of the first element that is not
    smaller than it. *)
Fixpoint insert_by_key (x : dict) (l : list dict) : option (list dict) :=
  match l with
  | [] => Some [x]
  | y :: l' =>
      b ← tuple_lt (thumb_key y) (thumb_key x);
      if b : bool then l'' ← insert_by_key x l'; Some (y :: l'')
      else Some (x :: y :: l')
  end.

Fixpoint stable_sort (l : list dict) : option (list dict) :=
  match l with
  | [] => Some []
  | x :: l' => s ← stable_sort l'; insert_by_key x s
  end.

Section Normalizer.

(** What [sorted] returns (or [None] when it raises) on the lists the
    model does not order itself: three or more thumbnails of which one
    has a width or height that is not an integer, or two of which one
    has a width or height that is neither an integer nor [None].  There
    the outcome depends on which pairs CPython happens to compare. *)
Variable sorted_unmodelled : list dict -> option (list dict).

(** [sorted(thumbnails, key=..., reverse=True)].  CPython reverses the
    list, sorts it stably in ascending order and reverses the result,
    which keeps equal keys in their original order.  A list of one
    element is returned without any comparison; with two elements the
    only comparison made is the one [stable_sort] makes. *)
Definition py_sorted_reverse (l : list dict) : option (list dict) :=
  match l with
  | [] | [_] => Some l
  | _ =>
      if forallb int_keyed l
         || ((length l =? 2)%nat && forallb int_or_none_keyed l)
      then reverse <$> stable_sort (reverse l)
      else sorted_unmodelled l
  end.

(** [_get_best_thumbnail]: the URL of the first thumbnail in sorted
    order, the empty string for a falsy argument; [None] when [sorted]
    raises (the argument is not iterable, an item has no [get], or two
    keys cannot be compared). *)
Definition _get_best_thumbnail (thumbnails : pyval) : option pyval :=
  if negb (truthy thumbnails) then Some (PStr "")
  else
    items ← py_iter thumbnails;
    ds ← mapM as_dict items;
    sorted_thumbs ← py_sorted_reverse ds;
    match sorted_thumbs with
    | t :: _ => Some (dict_get t "url" (PStr ""))
    | [] => Some (PStr "")
    end.

(** *** Video records *)

(** The [clean_info] dictionary of [_extract_info_sync]; [None] when
    building it raises. *)
Definition clean_info (url : string) (info : dict) : option pyval :=
  thumbnail ← _get_best_thumbnail (dict_get info "thumbnails" (PList []));
  formats ← _clean_formats (dict_get info "formats" (PList []));
  thumbnails ← _clean_thumbnails (dict_get info "thumbnails" (PList []));
  Some (PDict [ ("id", dict_get info "id" (PStr ""));
                ("title", dict_get info "title" (PStr ""));
                ("description", dict_get info "description" (PStr ""));
                ("duration", dict_get info "duration" PNone);
                ("webpage_url", dict_get info "webpage_url" (PStr url));
                ("thumbnail", thumbnail);
                ("uploader", dict_get info "uploader" (PStr ""));
                ("upload_date", dict_get info "upload_date" (PStr ""));
                ("view_count", dict_get info "view_count" PNone);
                ("extractor", dict_get info "extractor" (PStr ""));
                ("extractor_key", dict_get info "extractor_key" (PStr ""));
                ("available", PBool true);
                ("live_status", dict_get info "live_status" PNone);
                ("tags", dict_get info "tags" (PList []));
                ("categories", dict_get info "categories" (PList []));
                ("formats", formats);
                ("thumbnails", thumbnails) ]).

(** The [video_info] dictionary built for one entry in [_search_sync]. *)
Definition video_info (entry : dict) : option pyval :=
  thumbnail ← _get_best_thumbnail (dict_get entry "thumbnails" (PList []));
  formats ← _clean_formats (dict_get entry "formats" (PList []));
  thumbnails ← _clean_thumbnails (dict_get entry "thumbnails" (PList []));
  Some (PDict [ ("id", dict_get entry "id" (PStr ""));
                ("title", dict_get entry "title" (PStr ""));
                ("description", dict_get entry "description" (PStr ""));
                ("duration", dict_get entry "duration" PNone);
                ("webpage_url", dict_get entry "webpage_url" (PStr ""));
                ("thumbnail", thumbnail);
                ("uploader", dict_get entry "uploader" (PStr ""));
                ("upload_date", dict_get entry "upload_date" (PStr ""));
                ("view_count", dict_get entry "view_count" PNone);
                ("extractor", dict_get entry "extractor" (PStr ""));
                ("extractor_key", dict_get entry "extractor_key" (PStr ""));
                ("available", PBool true);
                ("live_status", dict_get entry "live_status" PNone);
                ("formats", formats);
                ("thumbnails", thumbnails) ]).

(** *** Search results *)

(** The items of [entries[:max_results]]; a value that cannot be sliced
    raises. *)
Definition py_slice_upto (v : pyval) (n : Z) : option (list pyval) :=
  match v with
  | PList l => Some (slice_upto l n)
  | PStr s =>
      Some (map (fun c => PStr (String c EmptyString))
                (slice_upto (list_ascii_of_string s) n))
  | PNone | PBool _ | PInt _ | PDict _ => None
  end.

(** The loop of [_search_sync]:
    [for entry in search_results['entries'][:max_results]:
         if entry: videos.append({... entry.get ...})]. *)
Definition search_videos (entries : pyval) (max_results : Z) : option (list pyval) :=
  items ← py_slice_upto entries max_results;
  mapM (fun entry => d ← as_dict entry; video_info d) (filter (fun e => truthy e) items).

Definition search_result (videos : list pyval) (query : string) : pyval :=
  PDict [ ("videos", PList videos);
          ("total_count", PInt (Z.of_nat (length videos)));
          ("query", PStr query) ].

(** What [_search_sync] does with the value [extract_info] returned
    ([None] of the outer [option] when it raises on the way). *)
Definition normalize_search (search_results : option dict) (query : string)
    (max_results : Z) : option pyval :=
  match search_results with
  | None => Some (search_result [] query)
  | Some sr =>
      if negb (truthy (PDict sr)) then Some (search_result [] query)
      else
        match dict_lookup sr "entries" with
        | None => Some (search_result [] query)
        | Some entries =>
            videos ← search_videos entries max_results;
            Some (search_result videos query)
        end
  end.

End Normalizer.

(** ** The facade service *)

(** The mutable fields of [YTDLPService]. *)
Record service : Type := Service {
  request_count : Z;
  error_count : Z;
  cache : gmap string cache_entry
}.

(** What [YoutubeDL(opts).extract_info(url, download=False)] does: it
    raises, or returns [None] or an info dictionary. *)
Inductive ydl_result : Type :=
| YdlRaises
| YdlReturns (info : option dict).

(** One call of the external collaborator: the ['format'] option it was
    built with (the only option that varies between calls) and the URL or
    query string it was given. *)
Record ydl_call : Type := YdlCall {
  call_format : string;
  call_url : string
}.

(** The JSON body of a request.  [JsonRaises msg] stands for a body that
    makes [await request.json()] or the field reads raise, [msg] being
    [str(e)].  The fields have the types the bot sends: strings for the
    locator, the format and the query, an integer for the limit; a field
    that is absent from the body is [None]. *)
Inductive request_json (A : Type) : Type :=
| JsonRaises (msg : string)
| JsonBody (body : A).
Arguments JsonRaises {A} msg.
Arguments JsonBody {A} body.

Record extract_body : Type := ExtractBody {
  body_url : option string;
  body_format : option string
}.

Record search_body : Type := SearchBody {
  body_query : option string;
  body_max_results : option Z
}.

(** [web.json_response]: the success envelope with its data, or the
    failure envelope with its status code and error text. *)
Inductive response : Type :=
| JsonOk (payload : pyval)
| JsonError (code : Z) (error : string).

(** The result of running a handler: the service afterwards, the
    response, and the calls made to the external collaborator, in order. *)
Record outcome : Type := Outcome {
  service_after : service;
  reply : response;
  dispatched : list ydl_call
}.

(** [bool(x)] for a body field that holds a string or is absent. *)
Definition str_truthy (x : option string) : bool :=
  match x with
  | Some s => negb (String.eqb s "")
  | None => false
  end.

Definition extract_cache_key (url : string) : string := "extract:" +:+ url.

Definition search_cache_key (query : string) (max_results : Z) : string :=
  "search:" +:+ query +:+ ":" +:+ py_str_int max_results.

(** [f"ytsearch{max_results}:{query}"]. *)
Definition search_query (query : string) (max_results : Z) : string :=
  "ytsearch" +:+ py_str_int max_results +:+ ":" +:+ query.

Section Facade.

(** [self.cache_ttl]. *)
Variable cache_ttl : Z.
(** [self.ytdl_opts['format']]. *)
Variable config_format : string.
(** The external collaborator. *)
Variable ydl_extract_info : string -> string -> ydl_result.
Variable sorted_unmodelled : list dict -> option (list dict).

(** The call [_extract_info_sync] makes. *)
Definition extract_call (url : string) (format_override : option string) : ydl_call :=
  YdlCall (if str_truthy format_override then default "" format_override
           else config_format)
          url.

(** [_extract_info_sync]; the result [None] is Python's [None]. *)
Definition _extract_info_sync (url : string) (format_override : option string)
    : option pyval :=
  let c := extract_call url format_override in
  match ydl_extract_info (call_format c) (call_url c) with
  | YdlRaises => None
  | YdlReturns None => None
  | YdlReturns (Some info) =>
      if negb (truthy (PDict info)) then None
      else clean_info sorted_unmodelled url info
  end.

(** The call [_search_sync] makes. *)
Definition search_call (query : string) (max_results : Z) : ydl_call :=
  YdlCall config_format (search_query query max_results).

(** [_search_sync]; the result [None] is Python's [None]. *)
Definition _search_sync (query : string) (max_results : Z) : option pyval :=
  let c := search_call query max_results in
  match ydl_extract_info (call_format c) (call_url c) with
  | YdlRaises => None
  | YdlReturns search_results =>
      normalize_search sorted_unmodelled search_results query max_results
  end.

(** [extract_info].  [now_lookup] is what [datetime.now()] returns in the
    cache check, [now_store] what it returns when the result is stored. *)
Definition extract_info (s : service) (request : request_json extract_body)
    (now_lookup now_store : Z) : outcome :=
  match request with
  | JsonRaises msg =>
      Outcome (Service (request_count s) (error_count s + 1) (cache s))
              (JsonError 500 msg) []
  | JsonBody body =>
      if negb (str_truthy (body_url body)) then
        Outcome s (JsonError 400 "URL is required") []
      else
        let url := default "" (body_url body) in
        let count := request_count s + 1 in
        let cache_key := extract_cache_key url in
        match Cache.get cache_ttl (cache s) cache_key now_lookup with
        | Some hit =>
            Outcome (Service count (error_count s) (cache s)) (JsonOk hit) []
        | None =>
            let call := extract_call url (body_format body) in
            match _extract_info_sync url (body_format body) with
            | Some info =>
                if truthy info then
                  Outcome (Service count (error_count s)
                             (Cache.set (cache s) cache_key info now_store))
                          (JsonOk info) [call]
                else
                  Outcome (Service count (error_count s + 1) (cache s))
                          (JsonError 404 "Failed to extract video information")
                          [call]
            | None =>
                Outcome (Service count (error_count s + 1) (cache s))
                        (JsonError 404 "Failed to extract video information")
                        [call]
            end
        end
  end.

(** [search]. *)
Definition search (s : service) (request : request_json search_body)
    (now_lookup now_store : Z) : outcome :=
  match request with
  | JsonRaises msg =>
      Outcome (Service (request_count s) (error_count s + 1) (cache s))
              (JsonError 500 msg) []
  | JsonBody body =>
      if negb (str_truthy (body_query body)) then
        Outcome s (JsonError 400 "Query is required") []
      else
        let query := default "" (body_query body) in
        let max_results := default 10 (body_max_results body) in
        let count := request_count s + 1 in
        let cache_key := search_cache_key query max_results in
        match Cache.get cache_ttl (cache s) cache_key now_lookup with
        | Some hit =>
            Outcome (Service count (error_count s) (cache s)) (JsonOk hit) []
        | None =>
            let call := search_call query max_results in
            match _search_sync query max_results with
            | Some results =>
                Outcome (Service count (error_count s)
                           (Cache.set (cache s) cache_key results now_store))
                        (JsonOk results) [call]
            | None =>
                Outcome (Service count (error_count s + 1) (cache s))
                        (JsonError 500 "Search failed") [call]
            end
        end
  end.

(** [clear_cache]. *)
Definition clear_cache (s : service) : outcome :=
  Outcome (Service (request_count s) (error_count s) (Cache.clear (cache s)))
          (JsonOk (PDict [("message", PStr "Cache cleared successfully")])) [].

(** [cleanup_cache], run by the periodic task. *)
Definition cleanup_cache (s : service) (now : Z) : service :=
  Service (request_count s) (error_count s) (Cache.cleanup cache_ttl (cache s) now).

End Facade.

(** [YTDLPService.__init__]: both counters at zero, an empty cache. *)
Definition init_service : service := Service 0 0 ∅.

(** ** Handlers at their suspension point *)

(** After it has read its request a handler gives up control in one
    place only, [await loop.run_in_executor(...)]; other handlers, the
    sweep and the clear can run between the code before that line and
    the code after it.  [awaiting] records what a suspended handler is
    waiting for. *)
Inductive awaiting : Type :=
| AwaitExtract (url : string) (format_override : option string)
| AwaitSearch (query : string) (max_results : Z).

Inductive progress : Type :=
| Replied (r : response)
| Awaiting (a : awaiting).

Section Suspension.

Variable cache_ttl : Z.
Variable config_format : string.
Variable ydl_extract_info : string -> string -> ydl_result.
Variable sorted_unmodelled : list dict -> option (list dict).

(** [extract_info] up to the await. *)
Definition extract_begin (s : service) (request : request_json extract_body)
    (now_lookup : Z) : service * progress :=
  match request with
  | JsonRaises msg =>
      (Service (request_count s) (error_count s + 1) (cache s),
       Replied (JsonError 500 msg))
  | JsonBody body =>
      if negb (str_truthy (body_url body)) then
        (s, Replied (JsonError 400 "URL is required"))
      else
        let url := default "" (body_url body) in
        let count := request_count s + 1 in
        match Cache.get cache_ttl (cache s) (extract_cache_key url) now_lookup with
        | Some hit => (Service count (error_count s) (cache s), Replied (JsonOk hit))
        | None =>
            (Service count (error_count s) (cache s),
             Awaiting (AwaitExtract url (body_format body)))
        end
  end.

(** [search] up to the await. *)
Definition search_begin (s : service) (request : request_json search_body)
    (now_lookup : Z) : service * progress :=
  match request with
  | JsonRaises msg =>
      (Service (request_count s) (error_count s + 1) (cache s),
       Replied (JsonError 500 msg))
  | JsonBody body =>
      if negb (str_truthy (body_query body)) then
        (s, Replied (JsonError 400 "Query is required"))
      else
        let query := default "" (body_query body) in
        let max_results := default 10 (body_max_results body) in
        let count := request_count s + 1 in
        match Cache.get cache_ttl (cache s) (search_cache_key query max_results)
                now_lookup with
        | Some hit => (Service count (error_count s) (cache s), Replied (JsonOk hit))
        | None =>
            (Service count (error_count s) (cache s),
             Awaiting (AwaitSearch query max_results))
        end
  end.

(** What the worker thread computes for a suspended handler, and the
    call it makes; the worker does not touch the service's fields. *)
Definition worker (a : awaiting) : option pyval :=
  match a with
  | AwaitExtract url format_override =>
      _extract_info_sync config_format ydl_extract_info sorted_unmodelled
        url format_override
  | AwaitSearch query max_results =>
      _search_sync config_format ydl_extract_info sorted_unmodelled
        query max_results
  end.

Definition worker_call (a : awaiting) : ydl_call :=
  match a with
  | AwaitExtract url format_override => extract_call config_format url format_override
  | AwaitSearch query max_results => search_call config_format query max_results
  end.

(** The code of either handler after the await, [result] being the value
    the worker returned. *)
Definition resume (s : service) (a : awaiting) (result : option pyval)
    (now_store : Z) : service * response :=
  match a with
  | AwaitExtract url _ =>
      match result with
      | Some info =>
          if truthy info then
            (Service (request_count s) (error_count s)
               (Cache.set (cache s) (extract_cache_key url) info now_store),
             JsonOk info)
          else
            (Service (request_count s) (error_count s + 1) (cache s),
             JsonError 404 "Failed to extract video information")
      | None =>
          (Service (request_count s) (error_count s + 1) (cache s),
           JsonError 404 "Failed to extract video information")
      end
  | AwaitSearch query max_results =>
      match result with
      | Some results =>
          (Service (request_count s) (error_count s)
             (Cache.set (cache s) (search_cache_key query max_results) results
                now_store),
           JsonOk results)
      | None =>
          (Service (request_count s) (error_count s + 1) (cache s),
           JsonError 500 "Search failed")
      end
  end.

End Suspension.

(** One uninterrupted stretch of code that changes the service. *)
Inductive event : Type :=
| EvExtract (request : request_json extract_body) (now_lookup : Z)
| EvSearch (request : request_json search_body) (now_lookup : Z)
| EvResume (a : awaiting) (result : option pyval) (now_store : Z)
| EvClear
| EvSweep (now : Z).

Definition step (cache_ttl : Z) (s : service) (e : event) : service :=
  match e with
  | EvExtract request now_lookup => (extract_begin cache_ttl s request now_lookup).1
  | EvSearch request now_lookup => (search_begin cache_ttl s request now_lookup).1
  | EvResume a result now_store => (resume s a result now_store).1
  | EvClear => service_after (clear_cache s)
  | EvSweep now => cleanup_cache cache_ttl s now
  end.

(** The service after a sequence of events, in the order they ran. *)
Definition run (cache_ttl : Z) (s : service) (events : list event) : service :=
  foldl (step cache_ttl) s events.

(** ** Sample collaborators and requests *)

(** A collaborator whose every call raises. *)
Definition ydl_down : string -> string -> ydl_result := fun _ _ => YdlRaises.

(** A collaborator that knows one video and one search result. *)
Definition sample_info : dict :=
  [ ("id", PStr "dQw4"); ("title", PStr "Song"); ("duration", PInt 212) ].

Definition ydl_sample : string -> string -> ydl_result :=
  fun _ url =>
    if String.eqb url "http://valid" then YdlReturns (Some sample_info)
    else if String.eqb url "ytsearch3:lofi" then
      YdlReturns (Some [("entries", PList [PDict sample_info; PNone; PDict sample_info;
                                            PDict sample_info; PDict sample_info])])
    else YdlReturns None.

(** The stand-in used for [sorted] outside the modelled lists. *)
Definition sorted_raises : list dict -> option (list dict) := fun _ => None.

Definition resolve_request (url : string) (format_override : option string)
    : request_json extract_body :=
  JsonBody (ExtractBody (Some url) format_override).

Definition search_request (query : string) (limit : Z) : request_json search_body :=
  JsonBody (SearchBody (Some query) (Some limit)).

(** Whether a request gets past the [if not url] / [if not query] check. *)
Definition extract_valid (request : request_json extract_body) : bool :=
  match request with
  | JsonBody body => str_truthy (body_url body)
  | JsonRaises _ => false
  end.

Definition search_valid (request : request_json search_body) : bool :=
  match request with
  | JsonBody body => str_truthy (body_query body)
  | JsonRaises _ => false
  end.

(** *** The order on thumbnail keys *)

(** The key of a thumbnail whose width and height are integers, and the
    lexicographic order on such keys. *)
Definition int_of (v : pyval) : Z :=
  match v with PInt z => z | _ => 0 end.

Definition zkey (x : dict) : Z * Z :=
  (int_of (thumb_key x).1, int_of (thumb_key x).2).

Definition lex_lt (a b : Z * Z) : Prop :=
  a.1 < b.1 \/ (a.1 = b.1 /\ a.2 < b.2).

Definition lex_le (a b : Z * Z) : Prop :=
  a.1 < b.1 \/ (a.1 = b.1 /\ a.2 <= b.2).

Definition lex_ltb (a b : Z * Z) : bool :=
  (a.1 <? b.1) || ((a.1 =? b.1) && (a.2 <? b.2)).

(** Ascending order of two thumbnails by key. *)
Abbreviation key_le := (fun a b : dict => lex_le (zkey a) (zkey b)).

(** The element an ascending stable sort puts last: the greatest key,
    and among equal keys the one furthest to the right. *)
Fixpoint last_max (l : list dict) : option dict :=
  match l with
  | [] => None
  | x :: l' =>
      match last_max l' with
      | None => Some x
      | Some m => if lex_ltb (zkey m) (zkey x) then Some x else Some m
      end
  end.

(** *** Field groups of the video record *)

Definition string_fields : list string :=
  ["id"; "title"; "description"; "uploader"; "upload_date"; "extractor";
   "extractor_key"].

Definition nullable_fields : list string :=
  ["duration"; "view_count"; "live_status"].

Definition list_fields : list string :=
  ["tags"; "categories"; "formats"; "thumbnails"].

(** The field [k] of a record built by a normaliser. *)
Definition field (r : pyval) (k : string) : option pyval :=
  d ← as_dict r; dict_lookup d k.

(** The videos of a search result. *)
Definition videos_of (r : option pyval) : list pyval :=
  match r ≫= (fun v => field v "videos") with
  | Some (PList videos) => videos
  | _ => []
  end.

(** A stand-in for [sorted] that returns its argument. *)
Definition sorted_keep : list dict -> option (list dict) := fun l => Some l.

(** The configuration of [main]: 24 hours, in microseconds, and the
    default format. *)
Definition default_ttl : Z := 24 * 3600 * 1000000.
Definition default_format : string := "bestaudio/best".

(** The record the service builds for [sample_info]. *)
Definition sample_record : pyval :=
  Eval vm_compute in default PNone (clean_info sorted_raises "http://valid" sample_info).

(** The record the service builds for [sample_info] as a search entry. *)
Definition sample_video : pyval :=
  Eval vm_compute in default PNone (video_info sorted_raises sample_info).

(** A raw record whose formats are present and null, a raw search result
    whose entries are present and null, and a collaborator that returns
    them. *)
Definition null_formats_info : dict := [ ("id", PStr "x"); ("formats", PNone) ].

Definition null_entries_result : dict := [ ("entries", PNone) ].

Definition ydl_odd : string -> string -> ydl_result :=
  fun _ url =>
    if String.eqb url "http://null" then YdlReturns (Some null_formats_info)
    else if String.eqb url "ytsearch3:null" then YdlReturns (Some null_entries_result)
    else YdlReturns None.

(** A thumbnail list after one cleaning. *)
Definition sample_thumbs_clean : pyval :=
  Eval vm_compute in
    default PNone (_clean_thumbnails (PList [PDict [("url", PStr "a")]])).

(** A service whose cache holds one entry stamped at time 0. *)
Definition stale_service : service :=
  Service 7 2 {[ extract_cache_key "http://gone" := CacheEntry (PStr "old") 0 ]}.

(** What one event adds to the request counter and to the error counter:
    a start counts as a request when it passes validation; an unreadable
    body and a completion without a usable result count as errors. *)
Definition counts_request (e : event) : Z :=
  match e with
  | EvExtract request _ => if extract_valid request then 1 else 0
  | EvSearch request _ => if search_valid request then 1 else 0
  | _ => 0
  end.

Definition counts_error (e : event) : Z :=
  match e with
  | EvExtract (JsonRaises _) _ | EvSearch (JsonRaises _) _ => 1
  | EvResume (AwaitExtract _ _) (Some info) _ => if truthy info then 0 else 1
  | EvResume _ None _ => 1
  | _ => 0
  end.

Definition total (f : event -> Z) (events : list event) : Z :=
  foldr (fun e n => f e + n) 0 events.

(** What the error counter should gain for a given answer when it counts
    the 404 and 500 answers and nothing else. *)
Definition error_bump (r : response) : Z :=
  match r with
  | JsonOk _ => 0
  | JsonError code _ => if code =? 400 then 0 else 1
  end.

(** * Properties *)

(** ** The cache store *)

Lemma get_Some cache_ttl (cache : gmap string cache_entry) k now v :
  Cache.get cache_ttl cache k now = Some v <->
  exists e, cache !! k = Some e /\ data e = v /\ now - timestamp e < cache_ttl.
Proof.
  unfold Cache.get. split.
  - destruct (cache !! k) as [e|] eqn:He; [|discriminate].
    destruct (Z.ltb_spec (now - timestamp e) cache_ttl); [|discriminate].
    intros [= <-]. eauto.
  - intros (e & -> & <- & Hlt).
    destruct (Z.ltb_spec (now - timestamp e) cache_ttl); [done|lia].
Qed.

Lemma get_None cache_ttl (cache : gmap string cache_entry) k now :
  Cache.get cache_ttl cache k now = None <->
  (forall e, cache !! k = Some e -> cache_ttl <= now - timestamp e).
Proof.
  unfold Cache.get. destruct (cache !! k) as [e|] eqn:He.
  - destruct (Z.ltb_spec (now - timestamp e) cache_ttl); split; try done.
    + intros H'. specialize (H' e eq_refl). lia.
    + intros _ e' [= <-]. done.
  - split; [intros _ e' [=] | done].
Qed.

(** C1, as stated, fails: with a time-to-live of zero the entry that was
    just stored is not found, even when the lookup reads the very clock
    value the entry was stamped with. *)
Lemma fresh_entry_missed_at_zero_ttl :
  ~ (forall (cache_ttl : Z) (cache : gmap string cache_entry) k v now,
        Cache.get cache_ttl (Cache.set cache k v now) k now = Some v).
Proof.
  intros H. specialize (H 0 ∅ "extract:u" (PStr "v") 100).
  apply get_Some in H as (e & He & _ & Hlt).
  unfold Cache.set in He. rewrite lookup_insert_eq in He.
  injection He as <-. simpl in Hlt. lia.
Qed.

(** C1 (amended): an entry older than the time-to-live is never a hit,
    whether or not the sweep has run; and with a positive time-to-live a
    lookup made at the moment of the insert finds the stored value. *)
Theorem ttl_correctness cache_ttl (cache : gmap string cache_entry) k e v now :
  (cache !! k = Some e -> cache_ttl < now - timestamp e ->
     Cache.get cache_ttl cache k now = None) /\
  (0 < cache_ttl ->
     Cache.get cache_ttl (Cache.set cache k v now) k now = Some v).
Proof.
  split.
  - intros He Hold. apply get_None. intros e' He'.
    rewrite He in He'. injection He' as <-. lia.
  - intros Hpos. apply get_Some. exists (CacheEntry v now).
    unfold Cache.set. rewrite lookup_insert_eq. simpl. split_and!; [done..|lia].
Qed.

Lemma ttl_correctness_witness :
  Cache.get 10 {[ "extract:u" := CacheEntry (PStr "old") 0 ]} "extract:u" 11 = None /\
  Cache.get 10 (Cache.set {[ "extract:u" := CacheEntry (PStr "old") 0 ]}
                          "extract:u" (PStr "new") 11) "extract:u" 11
    = Some (PStr "new").
Proof.
  destruct (ttl_correctness 10 {[ "extract:u" := CacheEntry (PStr "old") 0 ]}
              "extract:u" (CacheEntry (PStr "old") 0) (PStr "new") 11)
    as [Hold Hnew].
  split.
  - apply Hold; [vm_compute; reflexivity | simpl; lia].
  - apply Hnew. lia.
Defined.

(** The sweep and the clear are the two places where entries leave the
    store. *)
Lemma elem_of_expired_keys cache_ttl (cache : gmap string cache_entry) now k :
  k ∈ Cache.expired_keys cache_ttl cache now <->
  exists e, cache !! k = Some e /\ cache_ttl < now - timestamp e.
Proof.
  unfold Cache.expired_keys. rewrite list_elem_of_fmap. split.
  - intros ([k' e] & -> & Hin). apply list_elem_of_filter in Hin as [Hold Hin].
    apply elem_of_map_to_list in Hin. eauto.
  - intros (e & He & Hold). exists (k, e). split; [done|].
    apply list_elem_of_filter. split; [done|]. by apply elem_of_map_to_list.
Qed.

Lemma cleanup_lookup cache_ttl (cache : gmap string cache_entry) now k e :
  Cache.cleanup cache_ttl cache now !! k = Some e <->
  cache !! k = Some e /\ now - timestamp e <= cache_ttl.
Proof.
  unfold Cache.cleanup. rewrite lookup_foldr_delete_Some, elem_of_expired_keys.
  split.
  - intros [Hnot He]. split; [done|].
    destruct (Z.le_gt_cases (now - timestamp e) cache_ttl); [done|].
    exfalso. apply Hnot. eauto.
  - intros [He Hle]. split; [|done].
    intros (e' & He' & Hold). rewrite He in He'. injection He' as <-. lia.
Qed.

Lemma clear_lookup (cache : gmap string cache_entry) k :
  Cache.clear cache !! k = None.
Proof. apply lookup_empty. Qed.

(** ** The handlers *)

Section FacadeFacts.

Variable cache_ttl : Z.
Variable config_format : string.
Variable ydl_extract_info : string -> string -> ydl_result.
Variable sorted_unmodelled : list dict -> option (list dict).

Local Abbreviation resolve :=
  (extract_info cache_ttl config_format ydl_extract_info sorted_unmodelled).
Local Abbreviation find :=
  (search cache_ttl config_format ydl_extract_info sorted_unmodelled).
Local Abbreviation resolve_sync :=
  (_extract_info_sync config_format ydl_extract_info sorted_unmodelled).
Local Abbreviation find_sync :=
  (_search_sync config_format ydl_extract_info sorted_unmodelled).

(** The record [_extract_info_sync] returns is a dictionary with keys,
    so [if info] holds for it. *)
Lemma clean_info_truthy url info v :
  clean_info sorted_unmodelled url info = Some v -> truthy v = true.
Proof.
  unfold clean_info. intros H. simplify_option_eq. reflexivity.
Qed.

Lemma extract_sync_truthy url fo v :
  resolve_sync url fo = Some v -> truthy v = true.
Proof.
  unfold _extract_info_sync.
  destruct (ydl_extract_info _ _) as [|[info|]]; try discriminate.
  destruct (negb _); [discriminate|]. apply clean_info_truthy.
Qed.

(** The four ways [extract_info] ends for a request that passes
    validation. *)
Lemma extract_info_valid s url fo t1 t2 :
  url <> "" ->
  resolve s (resolve_request url fo) t1 t2 =
    match Cache.get cache_ttl (cache s) (extract_cache_key url) t1 with
    | Some hit =>
        Outcome (Service (request_count s + 1) (error_count s) (cache s))
                (JsonOk hit) []
    | None =>
        match resolve_sync url fo with
        | Some info =>
            Outcome (Service (request_count s + 1) (error_count s)
                       (Cache.set (cache s) (extract_cache_key url) info t2))
                    (JsonOk info) [extract_call config_format url fo]
        | None =>
            Outcome (Service (request_count s + 1) (error_count s + 1) (cache s))
                    (JsonError 404 "Failed to extract video information")
                    [extract_call config_format url fo]
        end
    end.
Proof.
  intros Hurl. unfold extract_info, resolve_request. simpl.
  destruct (String.eqb_spec url ""); [done|]. simpl.
  destruct (Cache.get _ _ _ _); [done|].
  destruct (resolve_sync url fo) as [info|] eqn:Hsync; [|done].
  by rewrite (extract_sync_truthy _ _ _ Hsync).
Qed.

Lemma search_valid_eq s query limit t1 t2 :
  query <> "" ->
  find s (search_request query limit) t1 t2 =
    match Cache.get cache_ttl (cache s) (search_cache_key query limit) t1 with
    | Some hit =>
        Outcome (Service (request_count s + 1) (error_count s) (cache s))
                (JsonOk hit) []
    | None =>
        match find_sync query limit with
        | Some results =>
            Outcome (Service (request_count s + 1) (error_count s)
                       (Cache.set (cache s) (search_cache_key query limit) results t2))
                    (JsonOk results) [search_call config_format query limit]
        | None =>
            Outcome (Service (request_count s + 1) (error_count s + 1) (cache s))
                    (JsonError 500 "Search failed")
                    [search_call config_format query limit]
        end
    end.
Proof.
  intros Hq. unfold search, search_request. simpl.
  destruct (String.eqb_spec query ""); [done|]. reflexivity.
Qed.

(** C2 (amended): a request that passes validation adds exactly one to
    the request counter whatever happens next (hit, stored miss,
    external failure); a request that is rejected before that, for an
    empty or missing locator or query or for an unreadable body, leaves
    the counter as it was. *)
Theorem request_count_step s rx rs t1 t2 :
  request_count (service_after (resolve s rx t1 t2)) =
    request_count s + (if extract_valid rx then 1 else 0) /\
  request_count (service_after (find s rs t1 t2)) =
    request_count s + (if search_valid rs then 1 else 0).
Proof.
  split.
  - unfold extract_info. destruct rx as [msg|body]; simpl; [lia|].
    destruct (str_truthy (body_url body)); simpl; [|lia].
    destruct (Cache.get _ _ _ _); simpl; [done|].
    destruct (resolve_sync _ _) as [info|]; simpl; [|done].
    by destruct (truthy info).
  - unfold search. destruct rs as [msg|body]; simpl; [lia|].
    destruct (str_truthy (body_query body)); simpl; [|lia].
    destruct (Cache.get _ _ _ _); simpl; [done|].
    by destruct (find_sync _ _).
Qed.

(** C3 (amended): on every search that misses the cache exactly one call
    goes to the collaborator, with the configured format and the query
    string ["ytsearch<limit>:<query>"]; the prefix is the word
    ["ytsearch"]. *)
Theorem search_miss_query s query limit t1 t2 :
  query <> "" ->
  Cache.get cache_ttl (cache s) (search_cache_key query limit) t1 = None ->
  dispatched (find s (search_request query limit) t1 t2) =
    [YdlCall config_format ("ytsearch" +:+ py_str_int limit +:+ ":" +:+ query)].
Proof.
  intros Hq Hmiss. rewrite search_valid_eq by done. rewrite Hmiss.
  by destruct (find_sync query limit).
Qed.

(** A hit answers from the cache: same payload for every override, no
    call to the collaborator, cache untouched. *)
Lemma extract_info_hit s url fo t1 t2 hit :
  url <> "" ->
  Cache.get cache_ttl (cache s) (extract_cache_key url) t1 = Some hit ->
  resolve s (resolve_request url fo) t1 t2 =
    Outcome (Service (request_count s + 1) (error_count s) (cache s)) (JsonOk hit) [].
Proof. intros Hurl Hhit. rewrite extract_info_valid by done. by rewrite Hhit. Qed.

(** C5: the key under which a resolve result is stored and looked up is
    built from the locator alone, so two requests for one locator that
    differ in the override meet the same entry.  When the entry is fresh
    both get the cached payload, with no call to the collaborator and no
    change to the cache.  In particular, after a miss that succeeded
    under the override [fo1], a request under any override [fo2] made
    while the entry is fresh is answered with the metadata computed under
    [fo1]. *)
Theorem resolve_key_ignores_override s url fo1 fo2 t1 t2 t3 t4 :
  url <> "" ->
  (forall hit,
     Cache.get cache_ttl (cache s) (extract_cache_key url) t1 = Some hit ->
     resolve s (resolve_request url fo1) t1 t2 =
       resolve s (resolve_request url fo2) t1 t2 /\
     resolve s (resolve_request url fo2) t1 t2 =
       Outcome (Service (request_count s + 1) (error_count s) (cache s))
               (JsonOk hit) []) /\
  (forall info,
     Cache.get cache_ttl (cache s) (extract_cache_key url) t1 = None ->
     resolve_sync url fo1 = Some info ->
     t3 - t2 < cache_ttl ->
     let s1 := service_after (resolve s (resolve_request url fo1) t1 t2) in
     cache s1 = <[extract_cache_key url := CacheEntry info t2]> (cache s) /\
     resolve s1 (resolve_request url fo2) t3 t4 =
       Outcome (Service (request_count s1 + 1) (error_count s1) (cache s1))
               (JsonOk info) []).
Proof.
  intros Hurl. split.
  - intros hit Hhit. by rewrite !(extract_info_hit _ _ _ _ _ hit).
  - intros info Hmiss Hsync Hfresh s1.
    assert (Hs1 : cache s1 = <[extract_cache_key url := CacheEntry info t2]> (cache s)).
    { unfold s1. rewrite extract_info_valid by done. by rewrite Hmiss, Hsync. }
    split; [done|].
    apply extract_info_hit; [done|]. apply get_Some.
    exists (CacheEntry info t2). rewrite Hs1, lookup_insert_eq. done.
Qed.

(** C8: when the resolve request reaches the collaborator and the
    collaborator raises, returns [None] or returns an empty dictionary,
    the answer is the 404 error, the error counter goes up by one and the
    cache is the cache from before the request. *)
Theorem resolve_external_failure s url fo t1 t2 :
  url <> "" ->
  Cache.get cache_ttl (cache s) (extract_cache_key url) t1 = None ->
  (let c := extract_call config_format url fo in
   ydl_extract_info (call_format c) (call_url c) = YdlRaises \/
   ydl_extract_info (call_format c) (call_url c) = YdlReturns None \/
   ydl_extract_info (call_format c) (call_url c) = YdlReturns (Some [])) ->
  let o := resolve s (resolve_request url fo) t1 t2 in
  dispatched o = [extract_call config_format url fo] /\
  reply o = JsonError 404 "Failed to extract video information" /\
  error_count (service_after o) = error_count s + 1 /\
  cache (service_after o) = cache s /\
  (cache s !! extract_cache_key url = None ->
   cache (service_after o) !! extract_cache_key url = None).
Proof.
  intros Hurl Hmiss Hext o. unfold o.
  rewrite extract_info_valid by done. rewrite Hmiss.
  assert (Hsync : resolve_sync url fo = None).
  { unfold _extract_info_sync. cbv zeta in Hext |- *.
    destruct Hext as [-> | [-> | ->]]; reflexivity. }
  rewrite Hsync. simpl. done.
Qed.

(** C9 (amended): the error counter goes up by one on every failure
    path but the validation failure, and on no success path.  An
    unreadable body is answered with the 500 and counted; an empty or
    missing locator or query is answered with the 400 and leaves the
    whole service state as it was; a cache hit and a miss whose fetch
    succeeded are answered with the payload and leave the counter alone;
    a miss whose fetch gave nothing (the collaborator raised, returned
    [None] or an empty dictionary, or the result could not be normalised)
    is answered with the 404 on resolve and the 500 on search, and
    counted.  So the counter moves exactly with the 404 and 500
    answers. *)
Theorem error_count_step s rx rs t1 t2 :
  let ox := resolve s rx t1 t2 in
  let os := find s rs t1 t2 in
  error_count (service_after ox) = error_count s + error_bump (reply ox) /\
  error_count (service_after os) = error_count s + error_bump (reply os) /\
  (forall body, str_truthy (body_url body) = false ->
     resolve s (JsonBody body) t1 t2 = Outcome s (JsonError 400 "URL is required") []) /\
  (forall body, str_truthy (body_query body) = false ->
     find s (JsonBody body) t1 t2 = Outcome s (JsonError 400 "Query is required") []) /\
  (forall msg,
     reply (resolve s (JsonRaises msg) t1 t2) = JsonError 500 msg /\
     error_count (service_after (resolve s (JsonRaises msg) t1 t2)) = error_count s + 1 /\
     reply (find s (JsonRaises msg) t1 t2) = JsonError 500 msg /\
     error_count (service_after (find s (JsonRaises msg) t1 t2)) = error_count s + 1) /\
  (forall body,
     str_truthy (body_url body) = true ->
     let url := default "" (body_url body) in
     let o := resolve s (JsonBody body) t1 t2 in
     match Cache.get cache_ttl (cache s) (extract_cache_key url) t1 with
     | Some hit =>
         reply o = JsonOk hit /\ error_count (service_after o) = error_count s
     | None =>
         match resolve_sync url (body_format body) with
         | Some info =>
             reply o = JsonOk info /\ error_count (service_after o) = error_count s
         | None =>
             reply o = JsonError 404 "Failed to extract video information" /\
             error_count (service_after o) = error_count s + 1
         end
     end) /\
  (forall body,
     str_truthy (body_query body) = true ->
     let query := default "" (body_query body) in
     let limit := default 10 (body_max_results body) in
     let o := find s (JsonBody body) t1 t2 in
     match Cache.get cache_ttl (cache s) (search_cache_key query limit) t1 with
     | Some hit =>
         reply o = JsonOk hit /\ error_count (service_after o) = error_count s
     | None =>
         match find_sync query limit with
         | Some results =>
             reply o = JsonOk results /\ error_count (service_after o) = error_count s
         | None =>
             reply o = JsonError 500 "Search failed" /\
             error_count (service_after o) = error_count s + 1
         end
     end) /\
  (forall url fo,
     (let c := extract_call config_format url fo in
      ydl_extract_info (call_format c) (call_url c) = YdlRaises \/
      ydl_extract_info (call_format c) (call_url c) = YdlReturns None \/
      ydl_extract_info (call_format c) (call_url c) = YdlReturns (Some [])) ->
     resolve_sync url fo = None) /\
  (forall query limit,
     ydl_extract_info config_format (search_query query limit) = YdlRaises ->
     find_sync query limit = None).
Proof.
  intros ox os. unfold ox, os.
  split_and!.
  - unfold extract_info. destruct rx as [msg|body]; simpl; [lia|].
    destruct (str_truthy (body_url body)); simpl; [|lia].
    destruct (Cache.get _ _ _ _); simpl; [lia|].
    destruct (resolve_sync _ _) as [info|]; simpl; [|lia].
    destruct (truthy info); simpl; lia.
  - unfold search. destruct rs as [msg|body]; simpl; [lia|].
    destruct (str_truthy (body_query body)); simpl; [|lia].
    destruct (Cache.get _ _ _ _); simpl; [lia|].
    destruct (find_sync _ _); simpl; lia.
  - unfold extract_info. by intros body ->.
  - unfold search. by intros body ->.
  - intros msg. done.
  - intros [[url|] fo] Hvalid; [|discriminate].
    assert (Hurl : url <> "").
    { intros ->. discriminate. }
    pose proof (extract_info_valid s url fo t1 t2 Hurl) as Hrun.
    unfold resolve_request in Hrun. cbv zeta.
    change (default "" (body_url (ExtractBody (Some url) fo))) with url.
    change (body_format (ExtractBody (Some url) fo)) with fo.
    rewrite Hrun.
    destruct (Cache.get _ _ _ _); [done|].
    by destruct (resolve_sync url fo).
  - intros [[query|] limit] Hvalid; [|discriminate].
    assert (Hquery : query <> "").
    { intros ->. discriminate. }
    pose proof (search_valid_eq s query (default 10 limit) t1 t2 Hquery) as Hrun.
    cbv zeta.
    change (default "" (body_query (SearchBody (Some query) limit))) with query.
    change (default 10 (body_max_results (SearchBody (Some query) limit)))
      with (default 10 limit).
    assert (Hsame : find s (JsonBody (SearchBody (Some query) limit)) t1 t2
                    = find s (search_request query (default 10 limit)) t1 t2).
    { by destruct limit. }
    rewrite Hsame, Hrun.
    destruct (Cache.get _ _ _ _); [done|].
    by destruct (find_sync query (default 10 limit)).
  - intros url fo Hext. unfold _extract_info_sync. cbv zeta in Hext |- *.
    destruct Hext as [-> | [-> | ->]]; reflexivity.
  - intros query limit Hext. unfold _search_sync. cbv zeta.
    simpl call_format. simpl call_url. by rewrite Hext.
Qed.

(** C10: a handler never deletes an entry and never edits one in place.
    Either the store is left exactly as it was, or the request missed,
    the fetch succeeded, and the one entry under the request's key is
    replaced by the fresh result.  In particular an entry that has
    expired is passed over by the lookup and, when the fetch then fails,
    is still there afterwards with its value and timestamp.  Entries
    leave the store in the sweep, which drops exactly those older than
    the time-to-live, and in the clear, which drops all. *)
Theorem lookup_leaves_store s rx rs t1 t2 :
  let ox := resolve s rx t1 t2 in
  let os := find s rs t1 t2 in
  (cache (service_after ox) = cache s \/
   exists url info, dispatched ox <> [] /\ reply ox = JsonOk info /\
     cache (service_after ox) =
       <[extract_cache_key url := CacheEntry info t2]> (cache s)) /\
  (cache (service_after os) = cache s \/
   exists query limit results, dispatched os <> [] /\ reply os = JsonOk results /\
     cache (service_after os) =
       <[search_cache_key query limit := CacheEntry results t2]> (cache s)) /\
  (forall url fo e,
     url <> "" ->
     cache s !! extract_cache_key url = Some e ->
     cache_ttl < t1 - timestamp e ->
     resolve_sync url fo = None ->
     let o := resolve s (resolve_request url fo) t1 t2 in
     reply o = JsonError 404 "Failed to extract video information" /\
     cache (service_after o) = cache s /\
     cache (service_after o) !! extract_cache_key url = Some e) /\
  (forall k e now,
     cache s !! k = Some e ->
     cache (cleanup_cache cache_ttl s now) !! k =
       if bool_decide (cache_ttl < now - timestamp e) then None else Some e) /\
  (forall k, cache (service_after (clear_cache s)) !! k = None).
Proof.
  intros ox os. split_and!.
  - unfold ox, extract_info. destruct rx as [msg|body]; simpl; [by left|].
    destruct (str_truthy (body_url body)); simpl; [|by left].
    destruct (Cache.get _ _ _ _); simpl; [by left|].
    destruct (resolve_sync _ _) as [info|]; simpl; [|by left].
    destruct (truthy info); simpl; [|by left].
    right. eexists _, info. done.
  - unfold os, search. destruct rs as [msg|body]; simpl; [by left|].
    destruct (str_truthy (body_query body)); simpl; [|by left].
    destruct (Cache.get _ _ _ _); simpl; [by left|].
    destruct (find_sync _ _) as [results|]; simpl; [|by left].
    right. eexists _, _, results. done.
  - intros url fo e Hurl He Hold Hsync o. unfold o.
    rewrite extract_info_valid by done.
    assert (Hmiss : Cache.get cache_ttl (cache s) (extract_cache_key url) t1 = None).
    { apply get_None. intros e' He'. rewrite He in He'. injection He' as <-. lia. }
    rewrite Hmiss, Hsync. simpl. done.
  - intros k e now He. simpl. case_bool_decide as Hold.
    + destruct (Cache.cleanup cache_ttl (cache s) now !! k) as [e'|] eqn:He'; [|done].
      apply cleanup_lookup in He' as [He' Hle]. rewrite He in He'.
      injection He' as <-. lia.
    + apply cleanup_lookup. split; [done|lia].
  - intros k. apply clear_lookup.
Qed.

End FacadeFacts.

(** ** The handlers on concrete requests *)

(** C2, as stated, fails: a resolve request with an empty locator is
    answered before the request counter is touched. *)
Lemma empty_locator_not_counted :
  request_count (service_after
    (extract_info default_ttl default_format ydl_sample sorted_raises
       init_service (resolve_request "" None) 0 0))
  <> request_count init_service + 1.
Proof. vm_compute. discriminate. Qed.

(** C3, as stated, fails: the string handed to the collaborator starts
    with ["ytsearch"], not with ["search"]. *)
Lemma search_query_prefix :
  map call_url (dispatched
    (search default_ttl default_format ydl_sample sorted_raises
       init_service (search_request "lofi" 3) 0 0))
  <> ["search" +:+ py_str_int 3 +:+ ":" +:+ "lofi"].
Proof. vm_compute. discriminate. Qed.

Lemma search_miss_query_witness :
  dispatched
    (search default_ttl default_format ydl_sample sorted_raises
       init_service (search_request "lofi" 3) 0 0)
  = [YdlCall default_format "ytsearch3:lofi"].
Proof.
  apply (search_miss_query default_ttl default_format ydl_sample sorted_raises
           init_service "lofi" 3 0 0).
  - discriminate.
  - vm_compute. reflexivity.
Defined.

Lemma resolve_key_ignores_override_witness :
  reply (extract_info default_ttl default_format ydl_sample sorted_raises
    (service_after
       (extract_info default_ttl default_format ydl_sample sorted_raises
          init_service (resolve_request "http://valid" (Some "best")) 0 1))
    (resolve_request "http://valid" (Some "worst")) 2 3)
  = JsonOk sample_record /\
  dispatched (extract_info default_ttl default_format ydl_sample sorted_raises
    (service_after
       (extract_info default_ttl default_format ydl_sample sorted_raises
          init_service (resolve_request "http://valid" (Some "best")) 0 1))
    (resolve_request "http://valid" (Some "worst")) 2 3)
  = [].
Proof.
  destruct (resolve_key_ignores_override default_ttl default_format ydl_sample
              sorted_raises init_service "http://valid" (Some "best") (Some "worst")
              0 1 2 3) as [_ Hmiss].
  { discriminate. }
  destruct (Hmiss sample_record) as [_ Hhit].
  - vm_compute. reflexivity.
  - vm_compute. reflexivity.
  - vm_compute. reflexivity.
  - rewrite Hhit. split; reflexivity.
Defined.

Lemma resolve_external_failure_witness :
  reply (extract_info default_ttl default_format ydl_down sorted_raises
           init_service (resolve_request "http://gone" None) 0 1)
  = JsonError 404 "Failed to extract video information".
Proof.
  apply (resolve_external_failure default_ttl default_format ydl_down sorted_raises
           init_service "http://gone" None 0 1).
  - discriminate.
  - vm_compute. reflexivity.
  - left. reflexivity.
Defined.

(** C9, as stated, fails: the 400 answer to an empty locator leaves the
    error counter alone. *)
Lemma empty_locator_not_an_error :
  error_count (service_after
    (extract_info default_ttl default_format ydl_sample sorted_raises
       init_service (resolve_request "" None) 0 0))
  <> error_count init_service + 1.
Proof. vm_compute. discriminate. Qed.

Lemma error_count_step_witness :
  extract_info default_ttl default_format ydl_down sorted_raises
    stale_service (JsonBody (ExtractBody None (Some "best"))) 5 6
  = Outcome stale_service (JsonError 400 "URL is required") [] /\
  (reply (extract_info default_ttl default_format ydl_down sorted_raises
            init_service (JsonBody (ExtractBody (Some "http://gone") None)) 0 1)
   = JsonError 404 "Failed to extract video information" /\
   error_count (service_after
     (extract_info default_ttl default_format ydl_down sorted_raises
        init_service (JsonBody (ExtractBody (Some "http://gone") None)) 0 1))
   = error_count init_service + 1) /\
  (reply (extract_info default_ttl default_format ydl_sample sorted_raises
            init_service (JsonBody (ExtractBody (Some "http://valid") None)) 0 1)
   = JsonOk sample_record /\
   error_count (service_after
     (extract_info default_ttl default_format ydl_sample sorted_raises
        init_service (JsonBody (ExtractBody (Some "http://valid") None)) 0 1))
   = error_count init_service) /\
  (reply (search default_ttl default_format ydl_down sorted_raises
            init_service (JsonBody (SearchBody (Some "lofi") None)) 0 1)
   = JsonError 500 "Search failed" /\
   error_count (service_after
     (search default_ttl default_format ydl_down sorted_raises
        init_service (JsonBody (SearchBody (Some "lofi") None)) 0 1))
   = error_count init_service + 1).
Proof.
  destruct (error_count_step default_ttl default_format ydl_down sorted_raises
              stale_service (JsonRaises "") (JsonRaises "") 5 6)
    as (_ & _ & Hinvalid & _).
  destruct (error_count_step default_ttl default_format ydl_down sorted_raises
              init_service (JsonRaises "") (JsonRaises "") 0 1)
    as (_ & _ & _ & _ & _ & Hresolve & Hsearch & _).
  destruct (error_count_step default_ttl default_format ydl_sample sorted_raises
              init_service (JsonRaises "") (JsonRaises "") 0 1)
    as (_ & _ & _ & _ & _ & Hsuccess & _).
  refine (conj _ (conj _ (conj _ _))).
  - apply Hinvalid. reflexivity.
  - pose proof (Hresolve (ExtractBody (Some "http://gone") None) eq_refl) as Hpath.
    vm_compute in Hpath. vm_compute. exact Hpath.
  - pose proof (Hsuccess (ExtractBody (Some "http://valid") None) eq_refl) as Hpath.
    vm_compute in Hpath. vm_compute. exact Hpath.
  - pose proof (Hsearch (SearchBody (Some "lofi") None) eq_refl) as Hpath.
    vm_compute in Hpath. vm_compute. exact Hpath.
Defined.

Lemma lookup_leaves_store_witness :
  cache (service_after
    (extract_info default_ttl default_format ydl_down sorted_raises
       stale_service (resolve_request "http://gone" None) (default_ttl + 1) (default_ttl + 2)))
    !! extract_cache_key "http://gone"
  = Some (CacheEntry (PStr "old") 0).
Proof.
  apply (lookup_leaves_store default_ttl default_format ydl_down sorted_raises
           stale_service (JsonRaises "") (JsonRaises "") (default_ttl + 1) (default_ttl + 2)).
  - discriminate.
  - vm_compute. reflexivity.
  - vm_compute. reflexivity.
  - vm_compute. reflexivity.
Defined.

(** ** Thumbnail selection *)

Lemma lex_ltb_true a b : lex_ltb a b = true <-> lex_lt a b.
Proof.
  unfold lex_lt, lex_ltb.
  rewrite orb_true_iff, andb_true_iff, !Z.ltb_lt, Z.eqb_eq. reflexivity.
Qed.

Lemma lex_ltb_false a b : lex_ltb a b = false <-> lex_le b a.
Proof.
  rewrite <- not_true_iff_false, lex_ltb_true. unfold lex_lt, lex_le. lia.
Qed.

Lemma lex_lt_le a b : lex_lt a b -> lex_le a b.
Proof. unfold lex_lt, lex_le. lia. Qed.

Lemma lex_le_trans a b c : lex_le a b -> lex_le b c -> lex_le a c.
Proof. unfold lex_le. lia. Qed.

Lemma lex_le_lt_trans a b c : lex_le a b -> lex_lt b c -> lex_lt a c.
Proof. unfold lex_lt, lex_le. lia. Qed.

Lemma lex_lt_trans a b c : lex_lt a b -> lex_lt b c -> lex_lt a c.
Proof. unfold lex_lt. lia. Qed.

(** On integer keys Python's tuple comparison never raises and is the
    lexicographic order. *)
Lemma tuple_lt_int x y :
  int_keyed x = true -> int_keyed y = true ->
  tuple_lt (thumb_key x) (thumb_key y) = Some (lex_ltb (zkey x) (zkey y)).
Proof.
  unfold int_keyed, zkey, tuple_lt, lex_ltb.
  destruct (thumb_key x) as [[] []], (thumb_key y) as [[] []]; simpl;
    try discriminate.
  intros _ _.
  destruct (Z.eqb_spec z z1), (Z.eqb_spec z0 z2), (Z.ltb_spec z z1),
    (Z.ltb_spec z0 z2); simpl; try reflexivity; lia.
Qed.

(** Inserting into an ascending list of integer-keyed thumbnails never
    raises, keeps the list ascending, and puts a new last element only
    when the inserted key is strictly greater than the old last one. *)
Lemma insert_by_key_last x s :
  int_keyed x = true ->
  Forall (fun y => int_keyed y = true) s ->
  StronglySorted key_le s ->
  exists s',
    insert_by_key x s = Some s' /\
    s' ≡ₚ x :: s /\
    StronglySorted key_le s' /\
    last s' = match last s with
              | None => Some x
              | Some m => if lex_ltb (zkey m) (zkey x) then Some x else Some m
              end.
Proof.
  intros Hx. induction s as [|a s IH]; intros Hall Hsorted.
  - exists [x]. split_and!; try done. repeat constructor.
  - apply Forall_cons in Hall as [Ha Hs].
    apply StronglySorted_inv in Hsorted as [Hsorted Hhead].
    simpl. rewrite (tuple_lt_int a x) by done. simpl.
    destruct (lex_ltb (zkey a) (zkey x)) eqn:Hcmp.
    + apply lex_ltb_true in Hcmp as Hlt.
      destruct (IH Hs Hsorted) as (s' & -> & Hperm & Hsorted' & Hlast).
      simpl. exists (a :: s'). split_and!; try done.
      * rewrite Hperm. apply Permutation_swap.
      * constructor; [done|]. rewrite Hperm. constructor; [|done].
        by apply lex_lt_le.
      * destruct s' as [|b s']; [by apply Permutation_nil_cons in Hperm|].
        rewrite last_cons_cons, Hlast. destruct s as [|c s]; simpl.
        -- by rewrite Hcmp.
        -- reflexivity.
    + apply lex_ltb_false in Hcmp as Hge.
      exists (x :: a :: s). split_and!; try done.
      * constructor; [by constructor|]. constructor; [done|].
        eapply Forall_impl; [exact Hhead|]. intros y Hy. simpl in *.
        by eapply lex_le_trans.
      * rewrite last_cons_cons.
        destruct (last (a :: s)) as [m|] eqn:Hm; [|by apply last_None in Hm].
        assert (Hle : lex_le (zkey a) (zkey m)).
        { destruct s as [|c s]; [injection Hm as <-; unfold lex_le; lia|].
          rewrite last_cons_cons in Hm. apply last_Some_elem_of in Hm.
          by apply (proj1 (Forall_forall _ _) Hhead). }
        assert (Hxm : lex_ltb (zkey m) (zkey x) = false).
        { apply lex_ltb_false. by eapply lex_le_trans. }
        by rewrite Hxm.
Qed.

Lemma stable_sort_last l :
  Forall (fun y => int_keyed y = true) l ->
  exists s,
    stable_sort l = Some s /\ s ≡ₚ l /\ StronglySorted key_le s /\
    last s = last_max l.
Proof.
  induction l as [|x l IH]; intros Hall.
  - exists []. split_and!; try done. constructor.
  - apply Forall_cons in Hall as [Hx Hl].
    destruct (IH Hl) as (s & Hs & Hperm & Hsorted & Hlast).
    destruct (insert_by_key_last x s) as (s' & Hs' & Hperm' & Hsorted' & Hlast');
      [done| by rewrite Hperm |done|].
    exists s'. simpl. rewrite Hs. simpl. split_and!; try done.
    + by rewrite Hperm', Hperm.
    + rewrite Hlast', Hlast. reflexivity.
Qed.

Lemma last_max_None m : last_max m = None -> m = [].
Proof.
  destruct m as [|x m]; [done|]. simpl.
  destruct (last_max m); [destruct (lex_ltb _ _)|]; discriminate.
Qed.

(** [last_max] picks an element that every earlier element is at most
    and every later element is strictly below. *)
Lemma last_max_split m t :
  last_max m = Some t ->
  exists m1 m2, m = m1 ++ t :: m2 /\
    Forall (fun x => lex_le (zkey x) (zkey t)) m1 /\
    Forall (fun x => lex_lt (zkey x) (zkey t)) m2.
Proof.
  revert t. induction m as [|x m IH]; intros t; simpl; [discriminate|].
  destruct (last_max m) as [b|] eqn:Hb.
  - destruct (IH b eq_refl) as (m1 & m2 & -> & H1 & H2).
    destruct (lex_ltb (zkey b) (zkey x)) eqn:Hcmp; intros [= <-].
    + apply lex_ltb_true in Hcmp. exists [], (m1 ++ b :: m2).
      split_and!; [done|constructor|].
      apply Forall_app. split; [|constructor; [done|]].
      * eapply Forall_impl; [exact H1|]. intros y Hy. simpl in *.
        by eapply lex_le_lt_trans.
      * eapply Forall_impl; [exact H2|]. intros y Hy. simpl in *.
        by eapply lex_lt_trans.
    + apply lex_ltb_false in Hcmp. exists (x :: m1), m2.
      split_and!; [done| by constructor |done].
  - intros [= <-]. apply last_max_None in Hb as ->.
    exists [], []. split_and!; [done|constructor..].
Qed.

Section Selection.

Variable sorted_unmodelled : list dict -> option (list dict).

(** On integer-keyed thumbnails [sorted(..., reverse=True)] returns a
    list headed by the rightmost greatest element of the reversed input. *)
Lemma py_sorted_reverse_head l :
  Forall (fun x => int_keyed x = true) l ->
  exists r, py_sorted_reverse sorted_unmodelled l = Some r /\
            head r = last_max (reverse l).
Proof.
  intros Hall. destruct l as [|a [|b l]].
  - by exists [].
  - by exists [a].
  - unfold py_sorted_reverse.
    assert (Hb : forallb int_keyed (a :: b :: l) = true).
    { apply Is_true_true, forallb_True.
      eapply Forall_impl; [exact Hall|]. intros y Hy. by apply Is_true_true. }
    rewrite Hb. simpl orb. cbv iota.
    destruct (stable_sort_last (reverse (a :: b :: l))) as (s & -> & _ & _ & Hlast).
    { by apply Forall_reverse. }
    exists (reverse s). split; [done|]. by rewrite head_reverse.
Qed.

Lemma mapM_as_dict (l : list dict) : mapM as_dict (PDict <$> l) = Some l.
Proof. by apply mapM_fmap_Some. Qed.

(** On a non-empty list of dictionaries the selection is the URL of the
    head of the sorted list. *)
Lemma best_thumbnail_of_dicts (l : list dict) :
  l <> [] ->
  _get_best_thumbnail sorted_unmodelled (PList (PDict <$> l)) =
    sorted_thumbs ← py_sorted_reverse sorted_unmodelled l;
    match sorted_thumbs with
    | t :: _ => Some (dict_get t "url" (PStr ""))
    | [] => Some (PStr "")
    end.
Proof.
  intros Hl. unfold _get_best_thumbnail.
  replace (truthy (PList (PDict <$> l))) with true by (by destruct l).
  unfold py_iter. cbn [negb mbind option_bind]. by rewrite mapM_as_dict.
Qed.


(** C6: the selection does not return a URL for every list of thumbnail
    records.  When one of two thumbnails has a width that is present and
    [None] and the other a width that is a number, the comparison of
    their keys raises and so does the selection, in either order of the
    two; the default 0 of the sort key stands in for an absent width
    only. *)
Theorem best_thumbnail_null_size_raises (a b : dict) w :
  dict_lookup a "width" = Some PNone ->
  dict_lookup b "width" = Some (PInt w) ->
  is_int_or_none (thumb_key a).2 = true ->
  is_int_or_none (thumb_key b).2 = true ->
  _get_best_thumbnail sorted_unmodelled (PList [PDict a; PDict b]) = None /\
  _get_best_thumbnail sorted_unmodelled (PList [PDict b; PDict a]) = None.
Proof.
  intros Ha Hb Hha Hhb.
  assert (Hka : (thumb_key a).1 = PNone).
  { unfold thumb_key, dict_get. simpl. by rewrite Ha. }
  assert (Hkb : (thumb_key b).1 = PInt w).
  { unfold thumb_key, dict_get. simpl. by rewrite Hb. }
  assert (Hab : tuple_lt (thumb_key a) (thumb_key b) = None).
  { unfold tuple_lt. by rewrite Hka, Hkb. }
  assert (Hba : tuple_lt (thumb_key b) (thumb_key a) = None).
  { unfold tuple_lt. by rewrite Hka, Hkb. }
  assert (Hnot : int_keyed a = false).
  { unfold int_keyed. by rewrite Hka. }
  assert (Hna : int_or_none_keyed a = true).
  { unfold int_or_none_keyed. by rewrite Hka, Hha. }
  assert (Hnb : int_or_none_keyed b = true).
  { unfold int_or_none_keyed. by rewrite Hkb, Hhb. }
  split.
  - change [PDict a; PDict b] with (PDict <$> [a; b]).
    rewrite (best_thumbnail_of_dicts [a; b]) by done.
    unfold py_sorted_reverse. cbn [forallb length Nat.eqb].
    rewrite Hnot, Hna, Hnb. cbn [andb orb].
    change (reverse [a; b]) with [b; a]. cbn [stable_sort mbind option_bind insert_by_key].
    by rewrite Hab.
  - change [PDict b; PDict a] with (PDict <$> [b; a]).
    rewrite (best_thumbnail_of_dicts [b; a]) by done.
    unfold py_sorted_reverse. cbn [forallb length Nat.eqb].
    rewrite Hnot, Hna, Hnb. rewrite andb_false_r. cbn [andb orb].
    change (reverse [b; a]) with [a; b]. cbn [stable_sort mbind option_bind insert_by_key].
    by rewrite Hba.
Qed.

End Selection.

(** The spec's example: 640x480 wins over 120x90 and over 640x360. *)
Example best_thumbnail_example :
  _get_best_thumbnail sorted_keep
    (PList [ PDict [("url", PStr "small"); ("width", PInt 120); ("height", PInt 90)];
             PDict [("url", PStr "large"); ("width", PInt 640); ("height", PInt 480)];
             PDict [("url", PStr "wide"); ("width", PInt 640); ("height", PInt 360)] ])
  = Some (PStr "large").
Proof. reflexivity. Qed.

(** Equal keys: the earlier candidate is returned. *)
Example best_thumbnail_tie :
  _get_best_thumbnail sorted_keep
    (PList [ PDict [("url", PStr "first"); ("width", PInt 640)];
             PDict [("url", PStr "second"); ("width", PInt 640); ("height", PInt 0)] ])
  = Some (PStr "first").
Proof. reflexivity. Qed.

Lemma best_thumbnail_null_size_raises_witness :
  _get_best_thumbnail sorted_keep
    (PList [ PDict [("url", PStr "a"); ("width", PNone); ("height", PNone)];
             PDict [("url", PStr "b"); ("width", PInt 640); ("height", PInt 480)] ])
  = None.
Proof.
  apply (best_thumbnail_null_size_raises sorted_keep
           [("url", PStr "a"); ("width", PNone); ("height", PNone)]
           [("url", PStr "b"); ("width", PInt 640); ("height", PInt 480)] 640);
    reflexivity.
Defined.


(** ** Video records and search results *)

Lemma dict_get_absent d k default :
  dict_lookup d k = None -> dict_get d k default = default.
Proof. unfold dict_get. by intros ->. Qed.

Lemma slice_upto_nonneg {A : Type} (l : list A) n :
  0 <= n -> slice_upto l n = take (Z.to_nat n) l.
Proof. unfold slice_upto. intros Hn. by destruct (Z.leb_spec 0 n); [|lia]. Qed.

Section Normalisation.

Variable cache_ttl : Z.
Variable config_format : string.
Variable ydl_extract_info : string -> string -> ydl_result.
Variable sorted_unmodelled : list dict -> option (list dict).

(** C4 (amended): in the record built from a raw extraction result every
    absent field gets its default: the empty string for the string
    fields, [None] for the nullable fields, the empty list for the list
    fields and the empty string for the best thumbnail; the canonical
    URL, when absent, is the locator that was requested.  A missing
    field never makes the normaliser raise: the record is built exactly
    when the values found under ['formats'] and ['thumbnails'] can be
    cleaned and sorted, which is always so for an absent one, and
    whatever the other fields are or are not.  [_extract_info_sync] hands
    back that record for every non-empty raw result; nothing is raised
    to its caller. *)
Theorem normalize_video_defaults url info :
  (forall r, clean_info sorted_unmodelled url info = Some r ->
     (forall k, k ∈ string_fields -> dict_lookup info k = None ->
        field r k = Some (PStr "")) /\
     (dict_lookup info "webpage_url" = None ->
        field r "webpage_url" = Some (PStr url)) /\
     (forall k, k ∈ nullable_fields -> dict_lookup info k = None ->
        field r k = Some PNone) /\
     (forall k, k ∈ list_fields -> dict_lookup info k = None ->
        field r k = Some (PList [])) /\
     (dict_lookup info "thumbnails" = None ->
        field r "thumbnail" = Some (PStr ""))) /\
  (dict_lookup info "formats" = None -> dict_lookup info "thumbnails" = None ->
     is_Some (clean_info sorted_unmodelled url info)) /\
  (forall fo,
     info <> [] ->
     (let c := extract_call config_format url fo in
      ydl_extract_info (call_format c) (call_url c) = YdlReturns (Some info)) ->
     _extract_info_sync config_format ydl_extract_info sorted_unmodelled url fo
       = clean_info sorted_unmodelled url info) /\
  (is_Some (clean_info sorted_unmodelled url info) <->
     is_Some (_get_best_thumbnail sorted_unmodelled
                (dict_get info "thumbnails" (PList []))) /\
     is_Some (_clean_formats (dict_get info "formats" (PList []))) /\
     is_Some (_clean_thumbnails (dict_get info "thumbnails" (PList [])))) /\
  (dict_lookup info "formats" = None ->
     is_Some (_clean_formats (dict_get info "formats" (PList [])))) /\
  (dict_lookup info "thumbnails" = None ->
     is_Some (_get_best_thumbnail sorted_unmodelled
                (dict_get info "thumbnails" (PList []))) /\
     is_Some (_clean_thumbnails (dict_get info "thumbnails" (PList [])))) /\
  (forall info',
     dict_lookup info' "formats" = dict_lookup info "formats" ->
     dict_lookup info' "thumbnails" = dict_lookup info "thumbnails" ->
     (is_Some (clean_info sorted_unmodelled url info') <->
      is_Some (clean_info sorted_unmodelled url info))).
Proof.
  assert (Hbuilt : forall i,
    is_Some (clean_info sorted_unmodelled url i) <->
    is_Some (_get_best_thumbnail sorted_unmodelled
               (dict_get i "thumbnails" (PList []))) /\
    is_Some (_clean_formats (dict_get i "formats" (PList []))) /\
    is_Some (_clean_thumbnails (dict_get i "thumbnails" (PList [])))).
  { intros i. unfold clean_info.
    destruct (_get_best_thumbnail _ _) as [thumbnail|]; simpl;
      [|split; [intros []; discriminate | intros ([] & _ & _); discriminate]].
    destruct (_clean_formats _) as [formats|]; simpl;
      [|split; [intros []; discriminate | intros (_ & [] & _); discriminate]].
    destruct (_clean_thumbnails _) as [thumbnails|]; simpl;
      [|split; [intros []; discriminate | intros (_ & _ & []); discriminate]].
    split; eauto. }
  split_and!.
  - intros r Hr. unfold clean_info in Hr.
    destruct (_get_best_thumbnail _ _) as [thumbnail|] eqn:Hbest; [|discriminate].
    destruct (_clean_formats _) as [formats|] eqn:Hformats; [|discriminate].
    destruct (_clean_thumbnails _) as [thumbnails|] eqn:Hthumbs; [|discriminate].
    simpl in Hr. injection Hr as <-. split_and!.
    + intros k Hk Habs. unfold string_fields in Hk.
      repeat (apply elem_of_cons in Hk as [->|Hk];
              [by rewrite (dict_get_absent _ _ _ Habs)|]).
      by apply elem_of_nil in Hk.
    + intros Habs. by rewrite (dict_get_absent _ _ _ Habs).
    + intros k Hk Habs. unfold nullable_fields in Hk.
      repeat (apply elem_of_cons in Hk as [->|Hk];
              [by rewrite (dict_get_absent _ _ _ Habs)|]).
      by apply elem_of_nil in Hk.
    + intros k Hk Habs. unfold list_fields in Hk.
      apply elem_of_cons in Hk as [->|Hk];
        [by rewrite (dict_get_absent _ _ _ Habs)|].
      apply elem_of_cons in Hk as [->|Hk];
        [by rewrite (dict_get_absent _ _ _ Habs)|].
      apply elem_of_cons in Hk as [->|Hk].
      { rewrite (dict_get_absent _ _ _ Habs) in Hformats.
        by injection Hformats as <-. }
      apply elem_of_cons in Hk as [->|Hk]; [|by apply elem_of_nil in Hk].
      rewrite (dict_get_absent _ _ _ Habs) in Hthumbs.
      by injection Hthumbs as <-.
    + intros Habs. rewrite (dict_get_absent _ _ _ Habs) in Hbest.
      by injection Hbest as <-.
  - intros Hf Ht. unfold clean_info.
    rewrite (dict_get_absent _ _ _ Hf), (dict_get_absent _ _ _ Ht). by eexists.
  - intros fo Hinfo Hext. unfold _extract_info_sync. cbv zeta in Hext |- *.
    rewrite Hext. by destruct info.
  - apply Hbuilt.
  - intros Habs. rewrite (dict_get_absent _ _ _ Habs). by eexists.
  - intros Habs. rewrite (dict_get_absent _ _ _ Habs). split; by eexists.
  - intros info' Hformats Hthumbs. rewrite !Hbuilt. unfold dict_get.
    by rewrite Hformats, Hthumbs.
Qed.

Lemma search_videos_length entries limit videos :
  0 <= limit ->
  search_videos sorted_unmodelled entries limit = Some videos ->
  Z.of_nat (length videos) <= limit.
Proof.
  intros Hlimit. unfold search_videos.
  destruct (py_slice_upto entries limit) as [items|] eqn:Hitems; [|discriminate].
  simpl. intros Hvideos. apply length_mapM in Hvideos.
  pose proof (length_filter (fun e => truthy e) items) as Hfilter.
  assert (length items <= Z.to_nat limit)%nat as Hslice.
  { destruct entries; simpl in Hitems; try discriminate; injection Hitems as <-.
    - rewrite length_map, slice_upto_nonneg, length_take by done. lia.
    - rewrite slice_upto_nonneg, length_take by done. lia. }
  lia.
Qed.


End Normalisation.

(** ** The normalisers on concrete records *)

(** C4, as stated, fails for the canonical URL: when the raw record has
    no ['webpage_url'], the record carries the requested locator, not
    the empty string. *)
Lemma canonical_url_defaults_to_locator :
  clean_info sorted_keep "http://valid" sample_info ≫= (fun r => field r "webpage_url")
  <> Some (PStr "").
Proof. vm_compute. discriminate. Qed.

Lemma normalize_video_defaults_witness :
  field sample_record "description" = Some (PStr "") /\
  field sample_record "webpage_url" = Some (PStr "http://valid") /\
  field sample_record "view_count" = Some PNone /\
  field sample_record "tags" = Some (PList []) /\
  field sample_record "thumbnail" = Some (PStr "") /\
  is_Some (clean_info sorted_raises "http://valid"
             [("formats", PList [PDict [("format_id", PStr "251")]])]).
Proof.
  destruct (normalize_video_defaults default_format ydl_sample sorted_raises
              "http://valid" sample_info) as (Hdefaults & _ & _).
  destruct (Hdefaults sample_record) as (Hstr & Hurl & Hnull & Hlist & Hbest).
  { vm_compute. reflexivity. }
  destruct (normalize_video_defaults default_format ydl_sample sorted_raises
              "http://valid" [("formats", PList [PDict [("format_id", PStr "251")]])])
    as (_ & _ & _ & Hbuilt & _ & Hthumbs & _).
  split_and!.
  - apply Hstr; [repeat constructor | reflexivity].
  - apply Hurl. reflexivity.
  - apply Hnull; [repeat constructor | reflexivity].
  - apply Hlist; [repeat constructor | reflexivity].
  - apply Hbest. reflexivity.
  - apply Hbuilt. destruct (Hthumbs eq_refl) as [Hbest' Hclean].
    split_and!; [exact Hbest' | by eexists | exact Hclean].
Defined.


(** * Further properties of the service *)

(** ** The sweep *)

Lemma get_after_cleanup cache_ttl (cache : gmap string cache_entry) k now now' :
  now <= now' ->
  Cache.get cache_ttl (Cache.cleanup cache_ttl cache now) k now'
    = Cache.get cache_ttl cache k now'.
Proof.
  intros Hlater. apply option_eq. intros v. rewrite !get_Some. split.
  - intros (e & He & Hv & Hfresh). apply cleanup_lookup in He as [He _]. eauto.
  - intros (e & He & Hv & Hfresh). exists e. split_and!; [|done..].
    apply cleanup_lookup. split; [done|lia].
Qed.

Section SweepFacts.

Variable cache_ttl : Z.
Variable config_format : string.
Variable ydl_extract_info : string -> string -> ydl_result.
Variable sorted_unmodelled : list dict -> option (list dict).

Local Abbreviation resolve :=
  (extract_info cache_ttl config_format ydl_extract_info sorted_unmodelled).
Local Abbreviation find :=
  (search cache_ttl config_format ydl_extract_info sorted_unmodelled).

(** X1: a sweep cannot be seen through the handlers.  A request whose
    cache check reads a clock value not earlier than the sweep's gets
    the same answer, makes the same calls to the collaborator and leaves
    the same counters whether or not the sweep ran before it. *)
Theorem sweep_unobservable s now rx rs t1 t2 :
  now <= t1 ->
  let swept := cleanup_cache cache_ttl s now in
  (reply (resolve swept rx t1 t2) = reply (resolve s rx t1 t2) /\
   dispatched (resolve swept rx t1 t2) = dispatched (resolve s rx t1 t2) /\
   request_count (service_after (resolve swept rx t1 t2))
     = request_count (service_after (resolve s rx t1 t2)) /\
   error_count (service_after (resolve swept rx t1 t2))
     = error_count (service_after (resolve s rx t1 t2))) /\
  (reply (find swept rs t1 t2) = reply (find s rs t1 t2) /\
   dispatched (find swept rs t1 t2) = dispatched (find s rs t1 t2) /\
   request_count (service_after (find swept rs t1 t2))
     = request_count (service_after (find s rs t1 t2)) /\
   error_count (service_after (find swept rs t1 t2))
     = error_count (service_after (find s rs t1 t2))).
Proof.
  intros Hlater swept. split.
  - unfold extract_info. destruct rx as [msg|body]; simpl; [done|].
    destruct (str_truthy (body_url body)); simpl; [|done].
    rewrite get_after_cleanup by done.
    destruct (Cache.get _ _ _ _); simpl; [done|].
    destruct (_extract_info_sync _ _ _ _ _) as [info|]; simpl; [|done].
    by destruct (truthy info).
  - unfold search. destruct rs as [msg|body]; simpl; [done|].
    destruct (str_truthy (body_query body)); simpl; [|done].
    rewrite get_after_cleanup by done.
    destruct (Cache.get _ _ _ _); simpl; [done|].
    by destruct (_search_sync _ _ _ _ _).
Qed.

End SweepFacts.

(** X2: the sweep and the lookup draw the line at different places.  An
    entry whose age is exactly the time-to-live is no longer a hit, yet
    the sweep run at that moment keeps it. *)
Theorem boundary_age_kept_but_missed cache_ttl (cache : gmap string cache_entry) k e now :
  cache !! k = Some e ->
  now - timestamp e = cache_ttl ->
  Cache.get cache_ttl cache k now = None /\
  Cache.cleanup cache_ttl cache now !! k = Some e.
Proof.
  intros He Hage. split.
  - apply get_None. intros e' He'. rewrite He in He'. injection He' as <-. lia.
  - apply cleanup_lookup. split; [done|lia].
Qed.

(** X3: sweeps compose.  Sweeping at one time and again at the same or a
    later time leaves the store that the later sweep alone would leave;
    in particular a sweep repeated at the same time changes nothing. *)
Theorem sweeps_compose cache_ttl (cache : gmap string cache_entry) now now' :
  now <= now' ->
  Cache.cleanup cache_ttl (Cache.cleanup cache_ttl cache now) now'
    = Cache.cleanup cache_ttl cache now'.
Proof.
  intros Hlater. apply map_eq. intros k. apply option_eq. intros e.
  rewrite !cleanup_lookup. split.
  - intros [[He _] Hfresh]. done.
  - intros [He Hfresh]. split_and!; [done| lia |done].
Qed.

(** ** Cache keys *)

Lemma to_int_not_nil n : Z.to_int n <> Decimal.Pos Decimal.Nil /\ Z.to_int n <> Decimal.Neg Decimal.Nil.
Proof.
  destruct n as [|p|p]; simpl; split; try discriminate;
    intros [= H]; by apply DecimalPos.Unsigned.to_uint_nonnil in H.
Qed.

(** [str] of an integer determines the integer. *)
Lemma py_str_int_inj a b : py_str_int a = py_str_int b -> a = b.
Proof.
  unfold py_str_int. intros H. apply DecimalZ.to_int_inj.
  apply (f_equal NilZero.int_of_string) in H.
  destruct (to_int_not_nil a), (to_int_not_nil b).
  rewrite !NilZero.isi in H by done. by injection H.
Qed.

Lemma digits_no_colon d :
  ~ In ":"%char (list_ascii_of_string (NilEmpty.string_of_uint d)).
Proof.
  induction d; simpl; [tauto|..]; intros [H|H]; try discriminate H; auto.
Qed.

Lemma uint_no_colon d :
  ~ In ":"%char (list_ascii_of_string (NilZero.string_of_uint d)).
Proof.
  destruct d; try apply digits_no_colon. simpl. intros [H|[]]. discriminate H.
Qed.

(** [str] of an integer has no colon in it. *)
Lemma py_str_int_no_colon n : ~ In ":"%char (list_ascii_of_string (py_str_int n)).
Proof.
  unfold py_str_int. destruct (Z.to_int n) as [d|d]; simpl.
  - apply uint_no_colon.
  - intros [H|H]; [discriminate H|]. by apply uint_no_colon in H.
Qed.

Lemma append_cons c q x : String c q +:+ x = String c (q +:+ x).
Proof. reflexivity. Qed.

Lemma append_nil x : "" +:+ x = x.
Proof. reflexivity. Qed.

(** A string is split in one way only at its last colon. *)
Lemma split_at_last_colon q1 q2 d1 d2 :
  ~ In ":"%char (list_ascii_of_string d1) ->
  ~ In ":"%char (list_ascii_of_string d2) ->
  q1 +:+ ":" +:+ d1 = q2 +:+ ":" +:+ d2 ->
  q1 = q2 /\ d1 = d2.
Proof.
  intros H1 H2. revert q2.
  assert (Hin : forall q d, In ":"%char (list_ascii_of_string (q +:+ ":" +:+ d))).
  { intros q d. induction q as [|c q IH].
    - rewrite append_nil, append_cons. simpl. auto.
    - rewrite append_cons. simpl. auto. }
  induction q1 as [|c q1 IH]; intros [|c' q2];
    rewrite ?append_nil, ?append_cons, ?append_nil.
  - by intros [= ->].
  - intros [= <- ->]. destruct H1. apply Hin.
  - intros [= -> <-]. destruct H2. apply Hin.
  - intros [= -> Hrest]. by destruct (IH _ Hrest) as [-> ->].
Qed.

Lemma extract_key_not_search_key url query limit :
  extract_cache_key url <> search_cache_key query limit.
Proof.
  unfold extract_cache_key, search_cache_key. rewrite !append_cons. discriminate.
Qed.

Lemma search_key_inj query query' limit limit' :
  search_cache_key query limit = search_cache_key query' limit' ->
  query = query' /\ limit = limit'.
Proof.
  unfold search_cache_key. rewrite !append_cons, !append_nil. intros [= H].
  apply split_at_last_colon in H as [-> H]; try apply py_str_int_no_colon.
  split; [done|]. by apply py_str_int_inj.
Qed.

(** X4: requests that differ do not share an entry.  Two resolve keys
    are equal only for equal locators; two search keys are equal only
    for equal queries and equal limits, even when a query itself holds
    colons or digits; and a resolve key is never a search key. *)
Theorem cache_keys_separate url url' query query' limit limit' :
  (extract_cache_key url = extract_cache_key url' -> url = url') /\
  (search_cache_key query limit = search_cache_key query' limit' ->
     query = query' /\ limit = limit') /\
  extract_cache_key url <> search_cache_key query limit.
Proof.
  split_and!.
  - unfold extract_cache_key. rewrite !append_cons, !append_nil. by intros [= ->].
  - apply search_key_inj.
  - apply extract_key_not_search_key.
Qed.

Section KeyFacts.

Variable cache_ttl : Z.
Variable config_format : string.
Variable ydl_extract_info : string -> string -> ydl_result.
Variable sorted_unmodelled : list dict -> option (list dict).

Local Abbreviation resolve :=
  (extract_info cache_ttl config_format ydl_extract_info sorted_unmodelled).
Local Abbreviation find :=
  (search cache_ttl config_format ydl_extract_info sorted_unmodelled).

(** X5: the two handlers do not disturb each other's entries.  Whatever
    a search does, every resolve entry is afterwards what it was, and
    whatever a resolve does, every search entry is afterwards what it
    was. *)
Theorem handlers_keep_other_entries s rx rs t1 t2 url query limit :
  cache (service_after (find s rs t1 t2)) !! extract_cache_key url
    = cache s !! extract_cache_key url /\
  cache (service_after (resolve s rx t1 t2)) !! search_cache_key query limit
    = cache s !! search_cache_key query limit.
Proof.
  split.
  - unfold search. destruct rs as [msg|body]; simpl; [done|].
    destruct (str_truthy (body_query body)); simpl; [|done].
    destruct (Cache.get _ _ _ _); simpl; [done|].
    destruct (_search_sync _ _ _ _ _); simpl; [|done].
    unfold Cache.set. apply lookup_insert_ne. intros Heq. symmetry in Heq.
    by apply extract_key_not_search_key in Heq.
  - unfold extract_info. destruct rx as [msg|body]; simpl; [done|].
    destruct (str_truthy (body_url body)); simpl; [|done].
    destruct (Cache.get _ _ _ _); simpl; [done|].
    destruct (_extract_info_sync _ _ _ _ _) as [info|]; simpl; [|done].
    destruct (truthy info); simpl; [|done].
    unfold Cache.set. apply lookup_insert_ne. apply extract_key_not_search_key.
Qed.

(** X6: after the cache has been cleared every valid request goes to the
    collaborator again, whatever was cached before and whatever the
    clock reads; the clear itself leaves both counters alone. *)
Theorem clear_forces_refetch s url fo query limit t1 t2 :
  url <> "" -> query <> "" ->
  let cleared := service_after (clear_cache s) in
  dispatched (resolve cleared (resolve_request url fo) t1 t2)
    = [extract_call config_format url fo] /\
  dispatched (find cleared (search_request query limit) t1 t2)
    = [search_call config_format query limit] /\
  request_count cleared = request_count s /\
  error_count cleared = error_count s.
Proof.
  intros Hurl Hquery cleared. split_and!; [| |done..].
  - rewrite extract_info_valid by done. unfold cleared. simpl.
    unfold Cache.get, Cache.clear. rewrite lookup_empty.
    by destruct (_extract_info_sync _ _ _ _ _).
  - rewrite search_valid_eq by done. unfold cleared. simpl.
    unfold Cache.get, Cache.clear. rewrite lookup_empty.
    by destruct (_search_sync _ _ _ _ _).
Qed.

End KeyFacts.

(** ** The search handler *)

Lemma normalize_no_entries sorted_unmodelled raw query limit :
  raw = None \/ raw = Some [] \/
  (exists sr, raw = Some sr /\ dict_lookup sr "entries" = None) ->
  normalize_search sorted_unmodelled raw query limit = Some (search_result [] query).
Proof.
  unfold normalize_search.
  intros [-> | [-> | (sr & -> & Hentries)]]; [done..|].
  rewrite Hentries. by destruct (negb _).
Qed.

Lemma normalize_unsliceable sorted_unmodelled sr v query limit :
  dict_lookup sr "entries" = Some v ->
  py_slice_upto v limit = None ->
  normalize_search sorted_unmodelled (Some sr) query limit = None.
Proof.
  intros Hentries Hslice. unfold normalize_search.
  destruct sr as [|kv sr]; [discriminate|]. cbn [truthy negb].
  rewrite Hentries. unfold search_videos. by rewrite Hslice.
Qed.

Section SearchFacts.

Variable cache_ttl : Z.
Variable config_format : string.
Variable ydl_extract_info : string -> string -> ydl_result.
Variable sorted_unmodelled : list dict -> option (list dict).

Local Abbreviation find :=
  (search cache_ttl config_format ydl_extract_info sorted_unmodelled).

(** X7: a search that reaches the collaborator fails with the 500
    answer "Search failed" when the collaborator raises and also when
    its result has an ['entries'] value that cannot be sliced, such as
    [None]: a present but null entry list is a failure, not an empty
    result.  The request is counted, the error counter goes up by one
    and nothing is stored. *)
Theorem search_external_failure s query limit t1 t2 :
  query <> "" ->
  Cache.get cache_ttl (cache s) (search_cache_key query limit) t1 = None ->
  (ydl_extract_info config_format (search_query query limit) = YdlRaises \/
   exists sr v,
     ydl_extract_info config_format (search_query query limit) = YdlReturns (Some sr) /\
     dict_lookup sr "entries" = Some v /\
     py_slice_upto v limit = None) ->
  find s (search_request query limit) t1 t2 =
    Outcome (Service (request_count s + 1) (error_count s + 1) (cache s))
            (JsonError 500 "Search failed")
            [search_call config_format query limit].
Proof.
  intros Hquery Hmiss Hext. rewrite search_valid_eq by done. rewrite Hmiss.
  assert (Hsync : _search_sync config_format ydl_extract_info sorted_unmodelled
                    query limit = None).
  { unfold _search_sync. cbv zeta. simpl call_format. simpl call_url.
    destruct Hext as [-> | (sr & v & -> & Hentries & Hslice)]; [done|].
    by eapply normalize_unsliceable. }
  by rewrite Hsync.
Qed.

(** X8: an empty search result is cached like any other.  When the
    collaborator returns [None], an empty dictionary or one without
    ['entries'], the handler answers with the empty result and stores
    it; a repeat of the request while the entry is fresh is answered
    from the cache without a call to the collaborator. *)
Theorem empty_search_is_cached s query limit raw t1 t2 t3 t4 :
  query <> "" ->
  Cache.get cache_ttl (cache s) (search_cache_key query limit) t1 = None ->
  ydl_extract_info config_format (search_query query limit) = YdlReturns raw ->
  (raw = None \/ raw = Some [] \/
   (exists sr, raw = Some sr /\ dict_lookup sr "entries" = None)) ->
  t3 - t2 < cache_ttl ->
  let first := find s (search_request query limit) t1 t2 in
  first =
    Outcome (Service (request_count s + 1) (error_count s)
               (<[search_cache_key query limit :=
                    CacheEntry (search_result [] query) t2]> (cache s)))
            (JsonOk (search_result [] query))
            [search_call config_format query limit] /\
  find (service_after first) (search_request query limit) t3 t4 =
    Outcome (Service (request_count s + 2) (error_count s)
               (cache (service_after first)))
            (JsonOk (search_result [] query)) [].
Proof.
  intros Hquery Hmiss Hext Hraw Hfresh first.
  assert (Hfirst : first =
    Outcome (Service (request_count s + 1) (error_count s)
               (<[search_cache_key query limit :=
                    CacheEntry (search_result [] query) t2]> (cache s)))
            (JsonOk (search_result [] query))
            [search_call config_format query limit]).
  { unfold first. rewrite search_valid_eq by done. rewrite Hmiss.
    unfold _search_sync. cbv zeta. simpl call_format. simpl call_url.
    rewrite Hext, (normalize_no_entries _ _ _ _ Hraw). done. }
  split; [done|]. rewrite Hfirst. rewrite search_valid_eq by done. simpl.
  assert (Hhit : Cache.get cache_ttl
            (<[search_cache_key query limit :=
                 CacheEntry (search_result [] query) t2]> (cache s))
            (search_cache_key query limit) t3 = Some (search_result [] query)).
  { apply get_Some. eexists. rewrite lookup_insert_eq. done. }
  rewrite Hhit. by replace (request_count s + 1 + 1) with (request_count s + 2) by lia.
Qed.

End SearchFacts.

(** ** Handlers that overlap *)

Section SuspensionFacts.

Variable cache_ttl : Z.
Variable config_format : string.
Variable ydl_extract_info : string -> string -> ydl_result.
Variable sorted_unmodelled : list dict -> option (list dict).

Local Abbreviation work :=
  (worker config_format ydl_extract_info sorted_unmodelled).

(** A handler that runs without interruption is its first half, the
    worker's computation, and its second half. *)
Lemma extract_info_split s request t1 t2 :
  extract_info cache_ttl config_format ydl_extract_info sorted_unmodelled
    s request t1 t2 =
  match extract_begin cache_ttl s request t1 with
  | (s1, Replied r) => Outcome s1 r []
  | (s1, Awaiting a) =>
      Outcome (resume s1 a (work a) t2).1 (resume s1 a (work a) t2).2
              [worker_call config_format a]
  end.
Proof.
  unfold extract_info, extract_begin. destruct request as [msg|body]; [done|].
  destruct (negb _); [done|]. simpl.
  destruct (Cache.get _ _ _ _); [done|]. simpl.
  destruct (_extract_info_sync _ _ _ _ _) as [info|]; [|done].
  by destruct (truthy info).
Qed.

Lemma search_split s request t1 t2 :
  search cache_ttl config_format ydl_extract_info sorted_unmodelled
    s request t1 t2 =
  match search_begin cache_ttl s request t1 with
  | (s1, Replied r) => Outcome s1 r []
  | (s1, Awaiting a) =>
      Outcome (resume s1 a (work a) t2).1 (resume s1 a (work a) t2).2
              [worker_call config_format a]
  end.
Proof.
  unfold search, search_begin. destruct request as [msg|body]; [done|].
  destruct (negb _); [done|]. simpl.
  destruct (Cache.get _ _ _ _); [done|]. simpl.
  by destruct (_search_sync _ _ _ _ _).
Qed.

Lemma step_counters s e :
  request_count (step cache_ttl s e) = request_count s + counts_request e /\
  error_count (step cache_ttl s e) = error_count s + counts_error e.
Proof.
  destruct e as [request t|request t|a result t| |now]; simpl.
  - unfold extract_begin. destruct request as [msg|body]; simpl; [lia|].
    destruct (str_truthy (body_url body)); simpl; [|lia].
    destruct (Cache.get _ _ _ _); simpl; lia.
  - unfold search_begin. destruct request as [msg|body]; simpl; [lia|].
    destruct (str_truthy (body_query body)); simpl; [|lia].
    destruct (Cache.get _ _ _ _); simpl; lia.
  - destruct a, result as [v|]; simpl; try lia. destruct (truthy v); simpl; lia.
  - lia.
  - lia.
Qed.

(** X9: the counters add up under every interleaving.  After any
    sequence of handler starts, handler completions, clears and sweeps,
    in any order, the request counter has grown by the number of starts
    that passed validation and the error counter by the number of
    unreadable bodies and of completions without a usable result;
    neither counter ever goes down. *)
Theorem counters_along_run s events :
  request_count (run cache_ttl s events)
    = request_count s + total counts_request events /\
  error_count (run cache_ttl s events)
    = error_count s + total counts_error events /\
  request_count s <= request_count (run cache_ttl s events) /\
  error_count s <= error_count (run cache_ttl s events).
Proof.
  assert (Hnonneg : forall e, 0 <= counts_request e /\ 0 <= counts_error e).
  { intros [[msg|body] t|[msg|body] t|[url fo|q n] [v|] t| |now]; simpl;
      repeat match goal with |- context [if ?b then _ else _] => destruct b end;
      lia. }
  assert (Htotal : forall f es, (forall e, 0 <= f e) -> 0 <= total f es).
  { intros f es Hf. induction es as [|e es IH]; simpl; [lia|].
    specialize (Hf e). lia. }
  assert (Hrun : request_count (run cache_ttl s events)
                   = request_count s + total counts_request events /\
                 error_count (run cache_ttl s events)
                   = error_count s + total counts_error events).
  { unfold run. revert s. induction events as [|e es IH]; intros s; simpl; [lia|].
    destruct (IH (step cache_ttl s e)) as [-> ->].
    destruct (step_counters s e) as [-> ->]. lia. }
  destruct Hrun as [Hr He]. split_and!; [done..| |].
  - pose proof (Htotal counts_request events (fun e => proj1 (Hnonneg e))). lia.
  - pose proof (Htotal counts_error events (fun e => proj2 (Hnonneg e))). lia.
Qed.

(** X10: there is no coalescing of identical requests.  When a second
    resolve of a locator starts while a first one is still waiting for
    the collaborator, it misses the cache as well and waits for a fetch
    of its own; both results are stored as they arrive, so the entry
    left in the cache is that of the fetch that completed last, whichever
    request started first. *)
Theorem overlapping_misses s url fo1 fo2 t1 t1' t2 t2' info1 info2 :
  url <> "" ->
  Cache.get cache_ttl (cache s) (extract_cache_key url) t1 = None ->
  Cache.get cache_ttl (cache s) (extract_cache_key url) t1' = None ->
  truthy info1 = true -> truthy info2 = true ->
  let a1 := AwaitExtract url fo1 in
  let a2 := AwaitExtract url fo2 in
  let started :=
    run cache_ttl s [EvExtract (resolve_request url fo1) t1;
                     EvExtract (resolve_request url fo2) t1'] in
  (extract_begin cache_ttl s (resolve_request url fo1) t1).2 = Awaiting a1 /\
  (extract_begin cache_ttl
     (extract_begin cache_ttl s (resolve_request url fo1) t1).1
     (resolve_request url fo2) t1').2 = Awaiting a2 /\
  cache (run cache_ttl started [EvResume a1 (Some info1) t2;
                                EvResume a2 (Some info2) t2'])
    !! extract_cache_key url = Some (CacheEntry info2 t2') /\
  cache (run cache_ttl started [EvResume a2 (Some info2) t2';
                                EvResume a1 (Some info1) t2])
    !! extract_cache_key url = Some (CacheEntry info1 t2) /\
  request_count started = request_count s + 2.
Proof.
  intros Hurl Hmiss Hmiss' Hinfo1 Hinfo2 a1 a2 started.
  assert (Hbegin : forall s' fo t,
    Cache.get cache_ttl (cache s') (extract_cache_key url) t = None ->
    extract_begin cache_ttl s' (resolve_request url fo) t =
      (Service (request_count s' + 1) (error_count s') (cache s'),
       Awaiting (AwaitExtract url fo))).
  { intros s' fo t Hm. unfold extract_begin, resolve_request. simpl.
    destruct (String.eqb_spec url ""); [done|]. simpl. by rewrite Hm. }
  pose proof (Hbegin (Service (request_count s + 1) (error_count s) (cache s))
                fo2 t1' Hmiss') as Hsecond.
  cbn [request_count error_count cache] in Hsecond.
  rewrite (Hbegin s fo1 t1 Hmiss). cbn [fst snd].
  rewrite Hsecond. cbn [snd].
  assert (Hstarted : started =
    Service (request_count s + 1 + 1) (error_count s) (cache s)).
  { unfold started, run. cbn [foldl step].
    rewrite (Hbegin s fo1 t1 Hmiss). cbn [fst]. by rewrite Hsecond. }
  rewrite Hstarted. unfold run. cbn [foldl step resume a1 a2].
  rewrite Hinfo1, Hinfo2. cbn [fst cache].
  unfold Cache.set.
  split_and!; [done..| | |simpl; lia]; apply lookup_insert_eq.
Qed.

End SuspensionFacts.

(** ** More on the normalisers *)

Lemma dict_get_present d k v default :
  dict_lookup d k = Some v -> dict_get d k default = v.
Proof. unfold dict_get. by intros ->. Qed.

Lemma mapM_fixed {A : Type} (f : A -> option A) (l : list A) :
  Forall (fun x => f x = Some x) l -> mapM f l = Some l.
Proof.
  induction 1 as [|x l Hx _ IH]; [done|]. simpl. by rewrite Hx, IH.
Qed.

(** Cleaning a list that holds only cleaned records gives it back. *)
Lemma clean_each_idempotent (clean : dict -> pyval) v r :
  (forall d, clean <$> as_dict (clean d) = Some (clean d)) ->
  clean_each clean v = Some r -> clean_each clean r = Some r.
Proof.
  intros Hclean. unfold clean_each.
  destruct (py_iter v) as [items|]; [|discriminate]. simpl.
  destruct (mapM _ items) as [cleaned|] eqn:Hitems; [|discriminate].
  simpl. intros [= <-]. simpl.
  rewrite mapM_fixed; [done|].
  apply mapM_Some_1 in Hitems. clear -Hitems Hclean.
  induction Hitems as [|x y items cleaned Hxy _ IH]; constructor; [|done].
  destruct (as_dict x) as [d|]; [|discriminate]. simpl in Hxy.
  injection Hxy as <-. apply Hclean.
Qed.

Section NormaliserFacts.

Variable cache_ttl : Z.
Variable config_format : string.
Variable ydl_extract_info : string -> string -> ydl_result.
Variable sorted_unmodelled : list dict -> option (list dict).

(** X11: a value that is present in the raw record is copied as it is,
    whatever its type; the defaults stand in for absent keys only.  A
    field that is present with the value [None] therefore stays [None],
    also where an absent field would have become the empty string. *)
Theorem present_values_pass_through url info r k v :
  clean_info sorted_unmodelled url info = Some r ->
  k ∈ string_fields ++ nullable_fields ++ ["webpage_url"; "tags"; "categories"] ->
  dict_lookup info k = Some v ->
  field r k = Some v.
Proof.
  intros Hr Hk Hv. unfold clean_info in Hr.
  destruct (_get_best_thumbnail _ _) as [thumbnail|]; [|discriminate].
  destruct (_clean_formats _) as [formats|]; [|discriminate].
  destruct (_clean_thumbnails _) as [thumbnails|]; [|discriminate].
  simpl in Hr. injection Hr as <-.
  unfold string_fields, nullable_fields in Hk. simpl in Hk.
  repeat (apply elem_of_cons in Hk as [->|Hk];
          [by rewrite (dict_get_present _ _ _ _ Hv)|]).
  by apply elem_of_nil in Hk.
Qed.

(** X12: the record built for a search entry is the record a resolve
    would build for the same raw dictionary, except in three fields: it
    has no ['tags'] and no ['categories'], and its canonical URL, when
    the raw one is absent, is the empty string.  Either both records can
    be built or neither. *)
Theorem search_record_differs_in_three_fields url d :
  (is_Some (clean_info sorted_unmodelled url d)
     <-> is_Some (video_info sorted_unmodelled d)) /\
  (forall r r',
     clean_info sorted_unmodelled url d = Some r ->
     video_info sorted_unmodelled d = Some r' ->
     (forall k, k <> "webpage_url" -> k <> "tags" -> k <> "categories" ->
        field r k = field r' k) /\
     field r' "tags" = None /\
     field r' "categories" = None /\
     (dict_lookup d "webpage_url" = None ->
        field r' "webpage_url" = Some (PStr "")) /\
     field r "available" = Some (PBool true) /\
     field r' "available" = Some (PBool true)).
Proof.
  unfold clean_info, video_info.
  destruct (_get_best_thumbnail _ _) as [thumbnail|];
    [|split; [split; intros []; discriminate | discriminate]].
  destruct (_clean_formats _) as [formats|];
    [|split; [split; intros []; discriminate | discriminate]].
  destruct (_clean_thumbnails _) as [thumbnails|];
    [|split; [split; intros []; discriminate | discriminate]].
  simpl. split; [split; eauto|].
  intros r r' [= <-] [= <-]. split_and!; try done.
  - intros k Hurl Htags Hcats. unfold field. cbn -[String.eqb].
    repeat match goal with
    | |- context [String.eqb ?a k] =>
        destruct (String.eqb_spec a k); [try done; by subst|]
    end.
    done.
  - intros Habs. by rewrite (dict_get_absent _ _ _ Habs).
Qed.

(** X13: the two list cleaners return one record per item, in the order
    of the input, when every item is a dictionary, and raise as soon as
    one item is not. *)
Theorem cleaners_keep_order (ds : list dict) (l : list pyval) x :
  _clean_formats (PList (PDict <$> ds)) = Some (PList (clean_format <$> ds)) /\
  _clean_thumbnails (PList (PDict <$> ds)) = Some (PList (clean_thumb <$> ds)) /\
  (x ∈ l -> as_dict x = None ->
   _clean_formats (PList l) = None /\ _clean_thumbnails (PList l) = None).
Proof.
  assert (Hmap : forall clean : dict -> pyval,
    mapM (fun y => clean <$> as_dict y) (PDict <$> ds) = Some (clean <$> ds)).
  { intros clean. induction ds as [|d ds' IH]; [done|].
    rewrite !fmap_cons. simpl. simpl in IH. by rewrite IH. }
  split_and!.
  - unfold _clean_formats, clean_each. simpl py_iter. simpl. by rewrite Hmap.
  - unfold _clean_thumbnails, clean_each. simpl py_iter. simpl. by rewrite Hmap.
  - intros Hin Hx.
    assert (Hfail : forall clean : dict -> pyval,
      mapM (fun y => clean <$> as_dict y) l = None).
    { intros clean. destruct (mapM _ l) as [k|] eqn:Hk; [|done].
      apply mapM_Some_1 in Hk. apply list_elem_of_lookup in Hin as [i Hi].
      destruct (Forall2_lookup_l _ _ _ _ _ Hk Hi) as (y & _ & Hy).
      by rewrite Hx in Hy. }
    unfold _clean_formats, _clean_thumbnails, clean_each. simpl.
    by rewrite !Hfail.
Qed.

(** X14: cleaning is idempotent.  Formats or thumbnails that have been
    cleaned once come back unchanged from a second cleaning. *)
Theorem cleaners_idempotent v r :
  (_clean_formats v = Some r -> _clean_formats r = Some r) /\
  (_clean_thumbnails v = Some r -> _clean_thumbnails r = Some r).
Proof.
  split; apply clean_each_idempotent; intros d; reflexivity.
Qed.

End NormaliserFacts.

(** ** Raw values that make a request fail *)

Lemma clean_each_unreadable clean v :
  py_iter v = None -> clean_each clean v = None.
Proof. unfold clean_each. by intros ->. Qed.

Section FailureFacts.

Variable cache_ttl : Z.
Variable config_format : string.
Variable ydl_extract_info : string -> string -> ydl_result.
Variable sorted_unmodelled : list dict -> option (list dict).

Lemma unreadable_lists_fail url info v :
  (dict_lookup info "formats" = Some v \/ dict_lookup info "thumbnails" = Some v) ->
  py_iter v = None ->
  clean_info sorted_unmodelled url info = None /\
  video_info sorted_unmodelled info = None.
Proof.
  intros Hpresent Hiter. unfold clean_info, video_info.
  destruct (_get_best_thumbnail _ _); [|done]. simpl.
  destruct Hpresent as [Hf|Ht].
  - unfold _clean_formats. rewrite (dict_get_present _ _ _ _ Hf).
    by rewrite (clean_each_unreadable _ _ Hiter).
  - destruct (_clean_formats _); [|done]. simpl.
    unfold _clean_thumbnails. rewrite (dict_get_present _ _ _ _ Ht).
    by rewrite (clean_each_unreadable _ _ Hiter).
Qed.

(** X15: a raw record whose ['formats'] or ['thumbnails'] is present but
    is [None], a boolean or a number makes the resolve fail: the default
    empty list is used for an absent key only, the cleaner raises on the
    value it gets, and the handler answers with the 404, counts an error
    and stores nothing.  This holds although the best-thumbnail
    selection itself accepts a [None] list. *)
Theorem resolve_null_list_fails s url fo info v t1 t2 :
  url <> "" ->
  Cache.get cache_ttl (cache s) (extract_cache_key url) t1 = None ->
  (let c := extract_call config_format url fo in
   ydl_extract_info (call_format c) (call_url c) = YdlReturns (Some info)) ->
  (dict_lookup info "formats" = Some v \/ dict_lookup info "thumbnails" = Some v) ->
  py_iter v = None ->
  _get_best_thumbnail sorted_unmodelled PNone = Some (PStr "") /\
  extract_info cache_ttl config_format ydl_extract_info sorted_unmodelled
    s (resolve_request url fo) t1 t2 =
    Outcome (Service (request_count s + 1) (error_count s + 1) (cache s))
            (JsonError 404 "Failed to extract video information")
            [extract_call config_format url fo].
Proof.
  intros Hurl Hmiss Hext Hpresent Hiter. split; [done|].
  rewrite extract_info_valid by done. rewrite Hmiss.
  assert (Hsync : _extract_info_sync config_format ydl_extract_info
                    sorted_unmodelled url fo = None).
  { unfold _extract_info_sync. cbv zeta in Hext |- *. rewrite Hext.
    destruct (negb _); [done|].
    by destruct (unreadable_lists_fail url info v Hpresent Hiter). }
  by rewrite Hsync.
Qed.

(** X16: one bad entry fails the whole search.  When among the first
    [limit] raw entries there is a truthy value that is not a
    dictionary, or a dictionary whose formats or thumbnails cannot be
    read, no result is built, not even for the entries before it. *)
Theorem bad_entry_fails_search sr entries query limit e :
  0 <= limit ->
  dict_lookup sr "entries" = Some (PList entries) ->
  e ∈ take (Z.to_nat limit) entries ->
  truthy e = true ->
  (as_dict e = None \/
   exists d v, e = PDict d /\
     (dict_lookup d "formats" = Some v \/ dict_lookup d "thumbnails" = Some v) /\
     py_iter v = None) ->
  normalize_search sorted_unmodelled (Some sr) query limit = None.
Proof.
  intros Hlimit Hentries Hin Htruthy Hbad. unfold normalize_search.
  destruct sr as [|kv sr]; [discriminate|]. cbn [truthy negb].
  rewrite Hentries. unfold search_videos, py_slice_upto.
  rewrite slice_upto_nonneg by done. simpl.
  destruct (mapM _ _) as [videos|] eqn:Hvideos; [|done]. exfalso.
  apply mapM_Some_1 in Hvideos.
  assert (Hkept : e ∈ filter (fun e => truthy e) (take (Z.to_nat limit) entries)).
  { apply list_elem_of_filter. split; [by apply Is_true_true|done]. }
  apply list_elem_of_lookup in Hkept as [i Hi].
  destruct (Forall2_lookup_l _ _ _ _ _ Hvideos Hi) as (y & _ & Hy).
  destruct Hbad as [Hnodict | (d & v & -> & Hpresent & Hiter)].
  - by rewrite Hnodict in Hy.
  - simpl in Hy.
    destruct (unreadable_lists_fail "" d v Hpresent Hiter) as [_ Hvid].
    by rewrite Hvid in Hy.
Qed.

(** X17: entries past the limit are never looked at.  For a limit that
    is not negative, two raw results whose entry lists agree on the
    first [limit] entries give the same outcome, so a bad entry further
    down the list does no harm; with limit 0 the result is the empty
    result whatever the list holds. *)
Theorem entries_beyond_limit_ignored sr sr' entries entries' query limit :
  0 <= limit ->
  dict_lookup sr "entries" = Some (PList entries) ->
  dict_lookup sr' "entries" = Some (PList entries') ->
  take (Z.to_nat limit) entries = take (Z.to_nat limit) entries' ->
  normalize_search sorted_unmodelled (Some sr) query limit
    = normalize_search sorted_unmodelled (Some sr') query limit /\
  normalize_search sorted_unmodelled (Some sr) query 0
    = Some (search_result [] query).
Proof.
  intros Hlimit Hentries Hentries' Hsame. unfold normalize_search.
  destruct sr as [|kv sr]; [discriminate|].
  destruct sr' as [|kv' sr']; [discriminate|]. cbn [truthy negb].
  rewrite Hentries, Hentries'. split; [|done].
  unfold search_videos, py_slice_upto.
  by rewrite !slice_upto_nonneg, Hsame by done.
Qed.

(** X18: a negative limit counts from the end.  With limit [-k] the
    videos are built from all raw entries but the last [k], in order and
    with the falsy ones left out; with any limit at all the result never
    holds more videos than there are raw entries. *)
Theorem negative_limit_drops_tail sr entries query limit :
  dict_lookup sr "entries" = Some (PList entries) ->
  (limit < 0 ->
   normalize_search sorted_unmodelled (Some sr) query limit =
     videos ← mapM (fun entry => d ← as_dict entry; video_info sorted_unmodelled d)
                   (filter (fun e => truthy e)
                      (take (length entries - Z.to_nat (- limit)) entries));
     Some (search_result videos query)) /\
  (forall r, normalize_search sorted_unmodelled (Some sr) query limit = Some r ->
     (length (videos_of (Some r)) <= length entries)%nat).
Proof.
  intros Hentries.
  assert (Hnorm : normalize_search sorted_unmodelled (Some sr) query limit =
     videos ← mapM (fun entry => d ← as_dict entry; video_info sorted_unmodelled d)
                   (filter (fun e => truthy e) (slice_upto entries limit));
     Some (search_result videos query)).
  { unfold normalize_search.
    destruct sr as [|kv sr]; [discriminate|]. cbn [truthy negb].
    by rewrite Hentries. }
  split.
  - intros Hneg. rewrite Hnorm. unfold slice_upto.
    destruct (Z.leb_spec 0 limit); [lia|].
    by replace (Z.to_nat (Z.of_nat (length entries) + limit))
      with (length entries - Z.to_nat (- limit))%nat by lia.
  - intros r. rewrite Hnorm.
    destruct (mapM _ _) as [videos|] eqn:Hvideos; [|discriminate].
    simpl. intros [= <-].
    change (videos_of (Some (search_result videos query))) with videos.
    apply length_mapM in Hvideos. rewrite <- Hvideos.
    etrans; [apply length_filter|]. unfold slice_upto.
    destruct (0 <=? limit); rewrite length_take; lia.
Qed.

End FailureFacts.

(** ** The limit is part of the search key *)

Section LimitFacts.

Variable cache_ttl : Z.
Variable config_format : string.
Variable ydl_extract_info : string -> string -> ydl_result.
Variable sorted_unmodelled : list dict -> option (list dict).

Local Abbreviation find :=
  (search cache_ttl config_format ydl_extract_info sorted_unmodelled).

(** X19: a cached search answers only the same query with the same
    limit.  After a search has been stored, a search for the same query
    with another limit that was not cached before still goes to the
    collaborator, with its own query string. *)
Theorem different_limit_refetches s query limit limit' t1 t2 t3 t4 :
  query <> "" ->
  limit <> limit' ->
  cache s !! search_cache_key query limit' = None ->
  let first := find s (search_request query limit) t1 t2 in
  dispatched (find (service_after first) (search_request query limit') t3 t4)
    = [YdlCall config_format (search_query query limit')].
Proof.
  intros Hquery Hlimit Habsent first.
  rewrite search_valid_eq by done.
  assert (Hstill : cache (service_after first) !! search_cache_key query limit' = None).
  { unfold first. rewrite search_valid_eq by done.
    destruct (Cache.get _ _ _ _); simpl; [done|].
    destruct (_search_sync _ _ _ _ _); simpl; [|done].
    unfold Cache.set. rewrite lookup_insert_ne; [done|].
    intros Heq. apply search_key_inj in Heq as [_ Heq]. done. }
  unfold Cache.get. rewrite Hstill.
  by destruct (_search_sync _ _ _ _ _).
Qed.

End LimitFacts.

(** ** The further properties on concrete inputs *)

Lemma sweep_unobservable_witness :
  reply (extract_info default_ttl default_format ydl_down sorted_raises
           (cleanup_cache default_ttl stale_service 5)
           (resolve_request "http://gone" None) 6 7)
  = reply (extract_info default_ttl default_format ydl_down sorted_raises
             stale_service (resolve_request "http://gone" None) 6 7).
Proof.
  destruct (sweep_unobservable default_ttl default_format ydl_down sorted_raises
              stale_service 5 (resolve_request "http://gone" None) (JsonRaises "")
              6 7) as [[Hreply _] _]; [lia | exact Hreply].
Defined.

Lemma boundary_age_kept_but_missed_witness :
  Cache.get 10 {[ "extract:u" := CacheEntry (PStr "v") 0 ]} "extract:u" 10 = None /\
  Cache.cleanup 10 {[ "extract:u" := CacheEntry (PStr "v") 0 ]} 10 !! "extract:u"
    = Some (CacheEntry (PStr "v") 0).
Proof.
  apply (boundary_age_kept_but_missed 10 {[ "extract:u" := CacheEntry (PStr "v") 0 ]}
           "extract:u" (CacheEntry (PStr "v") 0) 10).
  - vm_compute. reflexivity.
  - reflexivity.
Defined.

Lemma sweeps_compose_witness :
  Cache.cleanup 10 (Cache.cleanup 10 {[ "extract:u" := CacheEntry (PStr "v") 0 ]} 5) 20
  = Cache.cleanup 10 {[ "extract:u" := CacheEntry (PStr "v") 0 ]} 20.
Proof.
  apply (sweeps_compose 10 {[ "extract:u" := CacheEntry (PStr "v") 0 ]} 5 20). lia.
Defined.

Lemma clear_forces_refetch_witness :
  dispatched (extract_info default_ttl default_format ydl_down sorted_raises
                (service_after (clear_cache stale_service))
                (resolve_request "http://gone" None) 1 2)
  = [extract_call default_format "http://gone" None].
Proof.
  apply (clear_forces_refetch default_ttl default_format ydl_down sorted_raises
           stale_service "http://gone" None "lofi" 3 1 2); discriminate.
Defined.

Lemma search_external_failure_witness :
  search default_ttl default_format ydl_odd sorted_raises
    init_service (search_request "null" 3) 0 1
  = Outcome (Service (request_count init_service + 1) (error_count init_service + 1)
               (cache init_service))
            (JsonError 500 "Search failed") [search_call default_format "null" 3].
Proof.
  apply (search_external_failure default_ttl default_format ydl_odd sorted_raises
           init_service "null" 3 0 1).
  - discriminate.
  - vm_compute. reflexivity.
  - right. exists null_entries_result, PNone. split_and!; reflexivity.
Defined.

Lemma empty_search_is_cached_witness :
  dispatched (search default_ttl default_format ydl_sample sorted_raises
    (service_after (search default_ttl default_format ydl_sample sorted_raises
                      init_service (search_request "nothing" 3) 0 1))
    (search_request "nothing" 3) 2 3)
  = [].
Proof.
  destruct (empty_search_is_cached default_ttl default_format ydl_sample sorted_raises
              init_service "nothing" 3 None 0 1 2 3) as [_ Hsecond].
  - discriminate.
  - vm_compute. reflexivity.
  - vm_compute. reflexivity.
  - left. reflexivity.
  - vm_compute. reflexivity.
  - rewrite Hsecond. reflexivity.
Defined.

Lemma overlapping_misses_witness :
  cache (run default_ttl
           (run default_ttl init_service
              [EvExtract (resolve_request "http://valid" (Some "best")) 0;
               EvExtract (resolve_request "http://valid" None) 1])
           [EvResume (AwaitExtract "http://valid" None) (Some sample_video) 5;
            EvResume (AwaitExtract "http://valid" (Some "best")) (Some sample_record) 4])
    !! extract_cache_key "http://valid"
  = Some (CacheEntry sample_record 4).
Proof.
  apply (overlapping_misses default_ttl init_service "http://valid" (Some "best") None
           0 1 4 5 sample_record sample_video).
  - discriminate.
  - vm_compute. reflexivity.
  - vm_compute. reflexivity.
  - reflexivity.
  - reflexivity.
Defined.

Lemma present_values_pass_through_witness :
  field sample_record "duration" = Some (PInt 212).
Proof.
  apply (present_values_pass_through sorted_raises "http://valid" sample_info
           sample_record "duration" (PInt 212)).
  - vm_compute. reflexivity.
  - simpl. repeat constructor.
  - reflexivity.
Defined.

Lemma search_record_differs_in_three_fields_witness :
  field sample_record "title" = field sample_video "title".
Proof.
  destruct (search_record_differs_in_three_fields sorted_raises "http://valid"
              sample_info) as [_ Hboth].
  destruct (Hboth sample_record sample_video) as [Hsame _].
  - vm_compute. reflexivity.
  - vm_compute. reflexivity.
  - apply Hsame; discriminate.
Defined.

Lemma cleaners_keep_order_witness :
  _clean_formats (PList [PDict []; PInt 3]) = None /\
  _clean_thumbnails (PList [PDict []; PInt 3]) = None.
Proof.
  destruct (cleaners_keep_order [] [PDict []; PInt 3] (PInt 3)) as (_ & _ & Hbad).
  apply Hbad; [repeat constructor | reflexivity].
Defined.

Lemma cleaners_idempotent_witness :
  _clean_thumbnails sample_thumbs_clean = Some sample_thumbs_clean.
Proof.
  destruct (cleaners_idempotent (PList [PDict [("url", PStr "a")]])
              sample_thumbs_clean) as [_ Hthumbs].
  apply Hthumbs. vm_compute. reflexivity.
Defined.

Lemma resolve_null_list_fails_witness :
  reply (extract_info default_ttl default_format ydl_odd sorted_raises
           init_service (resolve_request "http://null" None) 0 1)
  = JsonError 404 "Failed to extract video information".
Proof.
  destruct (resolve_null_list_fails default_ttl default_format ydl_odd sorted_raises
              init_service "http://null" None null_formats_info PNone 0 1)
    as [_ Hfail].
  - discriminate.
  - vm_compute. reflexivity.
  - vm_compute. reflexivity.
  - left. reflexivity.
  - reflexivity.
  - rewrite Hfail. reflexivity.
Defined.

Lemma bad_entry_fails_search_witness :
  normalize_search sorted_raises
    (Some [("entries", PList [PDict sample_info; PInt 5])]) "lofi" 3
  = None.
Proof.
  apply (bad_entry_fails_search sorted_raises
           [("entries", PList [PDict sample_info; PInt 5])]
           [PDict sample_info; PInt 5] "lofi" 3 (PInt 5)).
  - lia.
  - reflexivity.
  - vm_compute. repeat constructor.
  - reflexivity.
  - left. reflexivity.
Defined.

Lemma entries_beyond_limit_ignored_witness :
  normalize_search sorted_raises
    (Some [("entries", PList [PDict sample_info; PInt 5])]) "lofi" 1
  = normalize_search sorted_raises
      (Some [("entries", PList [PDict sample_info])]) "lofi" 1.
Proof.
  apply (entries_beyond_limit_ignored sorted_raises
           [("entries", PList [PDict sample_info; PInt 5])]
           [("entries", PList [PDict sample_info])]
           [PDict sample_info; PInt 5] [PDict sample_info] "lofi" 1).
  - lia.
  - reflexivity.
  - reflexivity.
  - reflexivity.
Defined.

Lemma negative_limit_drops_tail_witness :
  normalize_search sorted_raises
    (Some [("entries", PList [PDict sample_info; PDict sample_info; PInt 5])])
    "lofi" (-1)
  = Some (search_result [sample_video; sample_video] "lofi").
Proof.
  destruct (negative_limit_drops_tail sorted_raises
              [("entries", PList [PDict sample_info; PDict sample_info; PInt 5])]
              [PDict sample_info; PDict sample_info; PInt 5] "lofi" (-1))
    as [Hneg _].
  - reflexivity.
  - rewrite Hneg by lia. vm_compute. reflexivity.
Defined.

Lemma different_limit_refetches_witness :
  dispatched (search default_ttl default_format ydl_sample sorted_raises
    (service_after (search default_ttl default_format ydl_sample sorted_raises
                      init_service (search_request "lofi" 3) 0 1))
    (search_request "lofi" 5) 2 3)
  = [YdlCall default_format (search_query "lofi" 5)].
Proof.
  apply (different_limit_refetches default_ttl default_format ydl_sample sorted_raises
           init_service "lofi" 3 5 0 1 2 3).
  - discriminate.
  - discriminate.
  - vm_compute. reflexivity.
Defined.
